(** * Intelliguard: the PPE compliance classifier and the face matcher

    A shallow embedding of [src/config.py], [src/ppe_detector.py] and
    [src/face_recognition_system.py].  Python exceptions are the [inl]
    branch of the small error monad [Exc]; a [try ... except Exception]
    block is a [match] on it.  Python floats are modelled by [Q]. *)

From Stdlib Require Import String Ascii List ZArith NArith QArith Qabs Bool Lia.
Import ListNotations.
Open Scope string_scope.

(** ** Exceptions *)

Definition Exc (A : Type) : Type := (string + A)%type.

Definition raise {A} (e : string) : Exc A := inl e.
Definition ret {A} (a : A) : Exc A := inr a.
Definition bind {A B} (m : Exc A) (f : A -> Exc B) : Exc B :=
  match m with
  | inl e => inl e
  | inr a => f a
  end.

Notation "x <- m ;; k" := (bind m (fun x => k))
  (at level 61, m at next level, right associativity).

(** ** Small Python helpers *)

(** [x in l] for a list of strings. *)
Definition py_in (s : string) (l : list string) : bool :=
  existsb (String.eqb s) l.

(** [l[i]] with Python's negative indices; out of range raises. *)
Definition py_list_get {A} (l : list A) (i : Z) : Exc A :=
  let n := Z.of_nat (length l) in
  let j := if (i <? 0)%Z then (i + n)%Z else i in
  if ((j <? 0) || (n <=? j))%Z then raise "IndexError: list index out of range"
  else match nth_error l (Z.to_nat j) with
       | Some a => ret a
       | None => raise "IndexError: list index out of range"
       end.

Fixpoint digits_aux (fuel : nat) (n : N) (acc : string) : string :=
  match fuel with
  | O => acc
  | S f =>
      let acc' := String (ascii_of_N (48 + N.modulo n 10)) acc in
      if (n <? 10)%N then acc' else digits_aux f (N.div n 10) acc'
  end.

(** [str(z)] for a Python int. *)
Definition py_str_Z (z : Z) : string :=
  let s := digits_aux (S (N.size_nat (Z.abs_N z))) (Z.abs_N z) "" in
  if (z <? 0)%Z then "-" ++ s else s.

(** [np.mean] of a non-empty list of floats. *)
Definition np_mean (l : list Q) : Q :=
  fold_left Qplus l 0 / inject_Z (Z.of_nat (length l)).

(** ** [src/config.py] *)

Module Config.

Definition PPE_CLASSES : list string :=
  ["glove"; "goggles"; "helmet"; "mask"; "no-suit"; "no_glove";
   "no_goggles"; "no_helmet"; "no_mask"; "no_shoes"; "shoes"; "suit"].

Definition VIOLATION_CLASSES : list string :=
  ["no_glove"; "no_goggles"; "no_helmet"; "no_mask"; "no_shoes"; "no-suit"].

End Config.

(** ** [src/ppe_detector.py] *)

Module PPEDetector.

(** One box of an ultralytics result: [xyxy[0]], [conf[0]], [int(cls[0])]. *)
Record Box := {
  xyxy : Q * Q * Q * Q;
  conf : Q;
  cls : Z
}.

(** One result of [self.model(image, conf=...)]; [boxes] may be [None]. *)
Record Result := {
  boxes : option (list Box)
}.

Module Detection.
Record t := {
  class_name : string;
  confidence : Q;
  bbox : list Q;
  width : Q;
  height : Q
}.
End Detection.

Module Violation.
Record t := {
  violation_type : string;
  severity : string;
  confidence : Q;
  bbox_x : Q;
  bbox_y : Q;
  bbox_width : Q;
  bbox_height : Q
}.
End Violation.

(** The dictionary returned by [detect_ppe]. *)
Module Verdict.
Record t := {
  detections : list Detection.t;
  violations : list Violation.t;
  total_detections : nat;
  violation_count : nat;
  compliance_status : string;
  average_confidence : Q
}.
End Verdict.

Definition class_names : list string := Config.PPE_CLASSES.
Definition violation_classes : list string := Config.VIOLATION_CLASSES.

(** [get_violation_severity]: [severity_map.get(violation_type, 'MEDIUM')]. *)
Definition get_violation_severity (violation_type : string) : string :=
  if String.eqb violation_type "no_helmet" then "CRITICAL"
  else if String.eqb violation_type "no_mask" then "HIGH"
  else if String.eqb violation_type "no_goggles" then "MEDIUM"
  else if String.eqb violation_type "no_glove" then "MEDIUM"
  else if String.eqb violation_type "no_shoes" then "MEDIUM"
  else if String.eqb violation_type "no-suit" then "HIGH"
  else "MEDIUM".

(** [get_compliance_status]. *)
Definition get_compliance_status (detections : list Detection.t)
    (violations : list Violation.t) : string :=
  if Nat.eqb (length violations) 0 then "COMPLIANT"
  else if Qle_bool (inject_Z (Z.of_nat (length detections)) * (1 # 2))
                   (inject_Z (Z.of_nat (length violations)))
  then "VIOLATION"
  else "PARTIAL".

(** The class name of a box: [self.class_names[class_id]] or [object_<id>]. *)
Definition box_class_name (class_id : Z) : Exc string :=
  if (class_id <? Z.of_nat (length class_names))%Z
  then py_list_get class_names class_id
  else ret ("object_" ++ py_str_Z class_id).

(** The body of the inner loop over the boxes: the detection dictionary and,
    when the class is a violation class, the violation dictionary. *)
Definition process_box (b : Box) : Exc (Detection.t * option Violation.t) :=
  let '(x1, y1, x2, y2) := xyxy b in
  let confidence := conf b in
  class_name <- box_class_name (cls b) ;;
  let detection := {| Detection.class_name := class_name;
                      Detection.confidence := confidence;
                      Detection.bbox := [x1; y1; x2; y2];
                      Detection.width := x2 - x1;
                      Detection.height := y2 - y1 |} in
  if py_in class_name violation_classes then
    ret (detection, Some {| Violation.violation_type := class_name;
                            Violation.severity := get_violation_severity class_name;
                            Violation.confidence := confidence;
                            Violation.bbox_x := x1;
                            Violation.bbox_y := y1;
                            Violation.bbox_width := x2 - x1;
                            Violation.bbox_height := y2 - y1 |})
  else ret (detection, None).

Definition opt_list {A} (o : option A) : list A :=
  match o with Some a => [a] | None => [] end.

(** [for box in boxes: ...], appending to [detections] and [violations]. *)
Fixpoint scan_boxes (bs : list Box) (detections : list Detection.t)
    (violations : list Violation.t) : Exc (list Detection.t * list Violation.t) :=
  match bs with
  | [] => ret (detections, violations)
  | b :: bs' =>
      p <- process_box b ;;
      scan_boxes bs' (detections ++ [fst p]) (violations ++ opt_list (snd p))
  end.

(** [for result in results: boxes = result.boxes; if boxes is not None: ...]. *)
Fixpoint scan_results (results : list Result) (detections : list Detection.t)
    (violations : list Violation.t) : Exc (list Detection.t * list Violation.t) :=
  match results with
  | [] => ret (detections, violations)
  | r :: rs =>
      acc <- match boxes r with
             | None => ret (detections, violations)
             | Some bs => scan_boxes bs detections violations
             end ;;
      scan_results rs (fst acc) (snd acc)
  end.

Definition error_verdict : Verdict.t :=
  {| Verdict.detections := [];
     Verdict.violations := [];
     Verdict.total_detections := 0;
     Verdict.violation_count := 0;
     Verdict.compliance_status := "ERROR";
     Verdict.average_confidence := 0 |}.

Section Detect.

(** The image type and the YOLO model: [self.model(image, conf=...)], which
    may raise. *)
Variable Image : Type.
Variable model : Image -> Q -> Exc (list Result).

(** The [try] block of [detect_ppe]. *)
Definition detect_ppe_body (image : Image) (confidence_threshold : Q) : Exc Verdict.t :=
  results <- model image confidence_threshold ;;
  acc <- scan_results results [] [] ;;
  let detections := fst acc in
  let violations := snd acc in
  let compliance_status := get_compliance_status detections violations in
  ret {| Verdict.detections := detections;
         Verdict.violations := violations;
         Verdict.total_detections := length detections;
         Verdict.violation_count := length violations;
         Verdict.compliance_status := compliance_status;
         Verdict.average_confidence :=
           match detections with
           | [] => 0
           | _ :: _ => np_mean (map Detection.confidence detections)
           end |}.

(** [detect_ppe]: the [except Exception] branch returns the ERROR verdict. *)
Definition detect_ppe (image : Image) (confidence_threshold : Q) : Verdict.t :=
  match detect_ppe_body image confidence_threshold with
  | inl _ => error_verdict
  | inr v => v
  end.

End Detect.

End PPEDetector.

(** ** [src/face_recognition_system.py] *)

Module FaceRecognitionSystem.

(** An embedding: [np.array] of floats, [.tolist()] of it. *)
Definition Enc : Type := list Q.

(** The instance state: the two parallel lists and the tolerance. *)
Record FRS := {
  known_face_encodings : list Enc;
  known_face_names : list string;
  tolerance : Q
}.

(** [__init__]. *)
Definition init : FRS :=
  {| known_face_encodings := []; known_face_names := []; tolerance := 6 # 10 |}.

(** A row of the employees table, as read by [load_known_faces]:
    [face_encoding] is a nullable text column. *)
Record Employee := {
  username : string;
  face_encoding : option string
}.

(** The dictionary returned by a successful [recognize_face]. *)
Module FaceMatch.
Record t (Loc : Type) := {
  username : string;
  confidence : Q;
  face_location : Loc
}.
Arguments username {Loc}.
Arguments confidence {Loc}.
Arguments face_location {Loc}.
End FaceMatch.

(** [np.argmin]: index of the first minimum; raises on an empty array. *)
Fixpoint argmin_aux (l : list Q) (i best : nat) (bv : Q) : nat :=
  match l with
  | [] => best
  | x :: xs =>
      if negb (Qle_bool bv x) then argmin_aux xs (S i) i x
      else argmin_aux xs (S i) best bv
  end.

Definition np_argmin (l : list Q) : Exc nat :=
  match l with
  | [] => raise "ValueError: attempt to get argmin of an empty sequence"
  | x :: xs => ret (argmin_aux xs 1 0 x)
  end.

Definition truthy (s : option string) : bool :=
  match s with
  | Some s' => negb (String.eqb s' "")
  | None => false
  end.

Section Face.

(** The image type, the face locations, and the external collaborators:
    the array conversion ([np.array] and [cv2.cvtColor]), the
    [face_recognition] library ([face_locations], [face_encodings], and the
    Euclidean norm [np.linalg.norm(a - b)] used by [face_distance]), and
    [np.array(json.loads(s))]. Each call that may raise returns [Exc]. *)
Variable Image Loc : Type.
Variable to_rgb : Image -> Exc Image.
Variable face_locations : Image -> Exc (list Loc).
Variable face_encodings : Image -> list Loc -> Exc (list Enc).
Variable euclid : Enc -> Enc -> Q.
Variable json_loads_array : string -> Exc Enc.

(** [face_recognition.face_distance]. *)
Definition face_distance (encs : list Enc) (face_to_compare : Enc) : list Q :=
  map (fun e => euclid e face_to_compare) encs.

(** [face_recognition.compare_faces]: [list(face_distance(...) <= tolerance)]. *)
Definition compare_faces (encs : list Enc) (face_to_check : Enc) (tol : Q) : list bool :=
  map (fun d => Qle_bool d tol) (face_distance encs face_to_check).

(** [encode_face_from_image], the [try] block. *)
Definition encode_face_body (image : Image) : Exc (option Enc * string) :=
  image' <- to_rgb image ;;
  locs <- face_locations image' ;;
  if Nat.eqb (length locs) 0 then ret (None, "No face detected in the image")
  else if Nat.ltb 1 (length locs)
  then ret (None, "Multiple faces detected. Please ensure only one face is visible")
  else
    encs <- face_encodings image' locs ;;
    match encs with
    | [] => ret (None, "Could not extract face features")
    | e :: _ => ret (Some e, "Face encoded successfully")
    end.

Definition encode_face_from_image (image : Image) : option Enc * string :=
  match encode_face_body image with
  | inl e => (None, "Error processing face: " ++ e)
  | inr r => r
  end.

(** [load_known_faces]: the loop, appending to the two fresh lists. *)
Fixpoint load_loop (employees : list Employee) (encs : list Enc)
    (names : list string) : list Enc * list string :=
  match employees with
  | [] => (encs, names)
  | employee :: rest =>
      if truthy (face_encoding employee) then
        match face_encoding employee with
        | Some s =>
            match json_loads_array s with
            | inr encoding =>
                load_loop rest (encs ++ [encoding]) (names ++ [username employee])
            | inl _ => load_loop rest encs names
            end
        | None => load_loop rest encs names
        end
      else load_loop rest encs names
  end.

Definition load_known_faces (self : FRS) (employees : list Employee) : FRS :=
  let r := load_loop employees [] [] in
  {| known_face_encodings := fst r;
     known_face_names := snd r;
     tolerance := tolerance self |}.

(** [for face_encoding in face_encodings: ...] of [recognize_face]. *)
Fixpoint match_faces (self : FRS) (locs : list Loc) (encs : list Enc)
    : Exc (option (FaceMatch.t Loc * string)) :=
  match encs with
  | [] => ret None
  | face_encoding :: rest =>
      let matches := compare_faces (known_face_encodings self) face_encoding (tolerance self) in
      let face_distances := face_distance (known_face_encodings self) face_encoding in
      if existsb (fun b => b) matches then
        best_match_index <- np_argmin face_distances ;;
        m <- py_list_get matches (Z.of_nat best_match_index) ;;
        if m then
          d <- py_list_get face_distances (Z.of_nat best_match_index) ;;
          let confidence := 1 - d in
          name <- py_list_get (known_face_names self) (Z.of_nat best_match_index) ;;
          loc0 <- py_list_get locs 0 ;;
          ret (Some ({| FaceMatch.username := name;
                        FaceMatch.confidence := confidence;
                        FaceMatch.face_location := loc0 |},
                     "Face recognized successfully"))
        else match_faces self locs rest
      else match_faces self locs rest
  end.

(** [recognize_face], the [try] block. *)
Definition recognize_face_body (self : FRS) (image : Image)
    : Exc (option (FaceMatch.t Loc) * string) :=
  image' <- to_rgb image ;;
  locs <- face_locations image' ;;
  if Nat.eqb (length locs) 0 then ret (None, "No face detected")
  else
    encs <- face_encodings image' locs ;;
    if Nat.eqb (length encs) 0 then ret (None, "Could not extract face features")
    else
      r <- match_faces self locs encs ;;
      match r with
      | Some (m, msg) => ret (Some m, msg)
      | None => ret (None, "Face not recognized")
      end.

Definition recognize_face (self : FRS) (image : Image) : option (FaceMatch.t Loc) * string :=
  match recognize_face_body self image with
  | inl e => (None, "Error processing face: " ++ e)
  | inr r => r
  end.

End Face.

End FaceRecognitionSystem.

(** ** The drawing utilities: [draw_detections] and [draw_face_rectangle]

    numpy arrays live in a heap of pixel buffers addressed by [nat]; the
    OpenCV calls [cv2.rectangle] and [cv2.putText] draw in place into the
    buffer at the address they are given. *)

Module Drawing.

Definition Color : Type := (Z * Z * Z)%type.
Definition Buffer : Type := list (list Color).
Definition Heap : Type := list Buffer.

(** Store a buffer at an address (no effect out of range). *)
Fixpoint heap_set (h : Heap) (p : nat) (b : Buffer) : Heap :=
  match h, p with
  | [], _ => []
  | _ :: h', O => b :: h'
  | c :: h', S p' => c :: heap_set h' p' b
  end.

Definition heap_get (h : Heap) (p : nat) : Buffer :=
  match nth_error h p with Some b => b | None => [] end.

(** An image argument: a numpy array (by address) or a PIL image. *)
Inductive ImageArg :=
| NdArray (p : nat)
| PILImage (pixels : Buffer).

(** [int(x)] of a float: truncation toward zero. *)
Definition py_int (q : Q) : Z := Z.quot (Qnum q) (Zpos (Qden q)).

Section Draw.

(** The OpenCV primitives on one buffer, and [format(x, '.2f')]. *)
Variable cv2_rectangle : Buffer -> Z * Z -> Z * Z -> Color -> Z -> Buffer.
Variable cv2_putText : Buffer -> string -> Z * Z -> Q -> Color -> Z -> Buffer.
Variable cv2_getTextSize : string -> Q -> Z -> Z * Z.
Variable fmt2 : Q -> string.

Definition rectangle_at (h : Heap) (p : nat) pt1 pt2 color thickness : Heap :=
  heap_set h p (cv2_rectangle (heap_get h p) pt1 pt2 color thickness).

Definition putText_at (h : Heap) (p : nat) label org scale color thickness : Heap :=
  heap_set h p (cv2_putText (heap_get h p) label org scale color thickness).

(** The body of [for detection in detections:] of [draw_detections], drawing
    into the buffer at [p]; unpacking a [bbox] of the wrong length raises. *)
Fixpoint draw_loop (h : Heap) (p : nat) (detections : list PPEDetector.Detection.t)
    : Exc Heap :=
  match detections with
  | [] => ret h
  | detection :: rest =>
      match PPEDetector.Detection.bbox detection with
      | [x1; y1; x2; y2] =>
          let class_name := PPEDetector.Detection.class_name detection in
          let confidence := PPEDetector.Detection.confidence detection in
          let color : Color :=
            if py_in class_name PPEDetector.violation_classes then (255, 0, 0)%Z
            else (0, 255, 0)%Z in
          let h1 := rectangle_at h p (py_int x1, py_int y1) (py_int x2, py_int y2) color 2%Z in
          let label := class_name ++ ": " ++ fmt2 confidence in
          let label_size := cv2_getTextSize label (1 # 2) 2%Z in
          let h2 := rectangle_at h1 p
                      (py_int x1, (py_int y1 - snd label_size - 10)%Z)
                      ((py_int x1 + fst label_size)%Z, py_int y1) color (-1)%Z in
          let h3 := putText_at h2 p label (py_int x1, (py_int y1 - 5)%Z) (1 # 2)
                      (255, 255, 255)%Z 2%Z in
          draw_loop h3 p rest
      | _ => raise "ValueError: too many values to unpack"
      end
  end.

(** [draw_detections]: [np.array] of a PIL image allocates a new array;
    [image.copy()] allocates another; the copy's address is returned. *)
Definition draw_detections (h : Heap) (image : ImageArg)
    (detections : list PPEDetector.Detection.t) : Exc (Heap * nat) :=
  let '(h0, src) :=
    match image with
    | NdArray p => (h, p)
    | PILImage px => (app h [px], length h)
    end in
  let image_copy := length h0 in
  let h1 := app h0 [heap_get h0 src] in
  h2 <- draw_loop h1 image_copy detections ;;
  ret (h2, image_copy).

(** [draw_face_rectangle]: draws into the array it is given and returns it
    ([left] and [right] are primed: they are constructors in Rocq). *)
Definition draw_face_rectangle (h : Heap) (image : nat) (face_location : Z * Z * Z * Z)
    (name : string) (confidence : Q) : Heap * nat :=
  let '(top, right', bottom, left') := face_location in
  let h1 := rectangle_at h image (left', top) (right', bottom) (0, 255, 0)%Z 2%Z in
  let label := name ++ " (" ++ fmt2 confidence ++ ")" in
  let h2 := rectangle_at h1 image (left', (bottom - 25)%Z) (right', bottom) (0, 255, 0)%Z (-1)%Z in
  let h3 := putText_at h2 image label ((left' + 6)%Z, (bottom - 6)%Z) (6 # 10)
              (255, 255, 255)%Z 1%Z in
  (h3, image).

End Draw.

(** A concrete raster model of [cv2.rectangle]: the pixels of the box
    [pt1]..[pt2] within [thickness] of its border (all of them when
    [thickness] is negative, i.e. [cv2.FILLED]) take [color]. *)
Definition raster_rectangle (b : Buffer) (pt1 pt2 : Z * Z) (color : Color)
    (thickness : Z) : Buffer :=
  let '(x1, y1) := pt1 in
  let '(x2, y2) := pt2 in
  map (fun yrow =>
         let y := Z.of_nat (fst yrow) in
         map (fun xpx =>
                let x := Z.of_nat (fst xpx) in
                let inside := ((x1 <=? x) && (x <=? x2) && (y1 <=? y) && (y <=? y2))%Z in
                let border := ((thickness <? 0) || (x <? x1 + thickness) ||
                               (x2 - thickness <? x) || (y <? y1 + thickness) ||
                               (y2 - thickness <? y))%Z in
                if inside && border then color else snd xpx)
             (combine (seq 0 (length (snd yrow))) (snd yrow)))
      (combine (seq 0 (length b)) b).

(** Text rendering is left out of the raster model. *)
Definition raster_putText (b : Buffer) (_ : string) (_ : Z * Z) (_ : Q) (_ : Color)
    (_ : Z) : Buffer := b.

Definition raster_getTextSize (s : string) (_ : Q) (_ : Z) : Z * Z :=
  (9 * Z.of_nat (String.length s), 12)%Z.

Definition raster_fmt2 (_ : Q) : string := "0.00".

End Drawing.

Arguments PPEDetector.detect_ppe_body {Image}.
Arguments PPEDetector.detect_ppe {Image}.

(** * Properties of the PPE classifier *)

Module PPEProofs.
Import PPEDetector.
Local Open Scope list_scope.

(** A detection whose class is in [VIOLATION_CLASSES]. *)
Definition is_violation (d : Detection.t) : bool :=
  py_in (Detection.class_name d) Config.VIOLATION_CLASSES.

(** The violation dictionary built from a detection dictionary. *)
Definition violation_of (d : Detection.t) : Violation.t :=
  {| Violation.violation_type := Detection.class_name d;
     Violation.severity := get_violation_severity (Detection.class_name d);
     Violation.confidence := Detection.confidence d;
     Violation.bbox_x := nth 0 (Detection.bbox d) 0;
     Violation.bbox_y := nth 1 (Detection.bbox d) 0;
     Violation.bbox_width := Detection.width d;
     Violation.bbox_height := Detection.height d |}.

Definition Qsum (l : list Q) : Q := fold_right Qplus 0 l.

Lemma process_box_spec b d ov :
  process_box b = inr (d, ov) ->
  ov = if is_violation d then Some (violation_of d) else None.
Proof.
  unfold process_box.
  destruct (xyxy b) as [[[x1 y1] x2] y2].
  destruct (box_class_name (cls b)) as [e|s]; cbn [bind]; [discriminate|].
  unfold is_violation, violation_of, violation_classes.
  destruct (py_in s Config.VIOLATION_CLASSES) eqn:V; intro H; inversion H; subst;
    cbn [Detection.class_name Detection.confidence Detection.bbox Detection.width
         Detection.height nth]; rewrite V; reflexivity.
Qed.

Lemma scan_boxes_spec bs : forall ds vs ds' vs',
  scan_boxes bs ds vs = inr (ds', vs') ->
  exists dn, ds' = ds ++ dn /\ vs' = vs ++ map violation_of (filter is_violation dn).
Proof.
  induction bs as [|b bs IH]; intros ds vs ds' vs' H; simpl in H.
  - inversion H; subst. exists []. rewrite !app_nil_r. split; reflexivity.
  - destruct (process_box b) as [e|[d ov]] eqn:P; simpl in H; [discriminate|].
    apply IH in H. destruct H as [dn [H1 H2]].
    apply process_box_spec in P. exists (d :: dn). subst. simpl.
    split; [rewrite <- app_assoc; reflexivity|].
    destruct (is_violation d); simpl; rewrite <- app_assoc; reflexivity.
Qed.

Lemma scan_results_spec rs : forall ds vs ds' vs',
  scan_results rs ds vs = inr (ds', vs') ->
  exists dn, ds' = ds ++ dn /\ vs' = vs ++ map violation_of (filter is_violation dn).
Proof.
  induction rs as [|r rs IH]; intros ds vs ds' vs' H; simpl in H.
  - inversion H; subst. exists []. rewrite !app_nil_r. split; reflexivity.
  - destruct (boxes r) as [bs|].
    + destruct (scan_boxes bs ds vs) as [e|[ds1 vs1]] eqn:S; simpl in H; [discriminate|].
      apply scan_boxes_spec in S. apply IH in H.
      destruct S as [dn1 [E1 F1]], H as [dn2 [E2 F2]]. subst.
      exists (dn1 ++ dn2). rewrite filter_app, map_app, !app_assoc.
      split; reflexivity.
    + simpl in H. exact (IH _ _ _ _ H).
Qed.

(** The shape of every verdict built by the [try] block. *)
Lemma detect_ppe_body_spec {Image} (model : Image -> Q -> Exc (list Result)) image thr v :
  detect_ppe_body model image thr = inr v ->
  Verdict.violations v = map violation_of (filter is_violation (Verdict.detections v)) /\
  Verdict.total_detections v = length (Verdict.detections v) /\
  Verdict.violation_count v = length (Verdict.violations v) /\
  Verdict.compliance_status v =
    get_compliance_status (Verdict.detections v) (Verdict.violations v) /\
  Verdict.average_confidence v =
    match Verdict.detections v with
    | [] => 0
    | _ :: _ => np_mean (map Detection.confidence (Verdict.detections v))
    end.
Proof.
  unfold detect_ppe_body.
  destruct (model image thr) as [e|results]; simpl; [discriminate|].
  destruct (scan_results results [] []) as [e|[ds vs]] eqn:S; simpl; [discriminate|].
  intro H; inversion H; subst; simpl.
  apply scan_results_spec in S. destruct S as [dn [E F]]. simpl in E, F. subst.
  repeat split; reflexivity.
Qed.

Lemma get_compliance_status_not_error ds vs :
  get_compliance_status ds vs <> "ERROR".
Proof.
  unfold get_compliance_status.
  destruct (Nat.eqb _ _); [discriminate|].
  destruct (Qle_bool _ _); discriminate.
Qed.

(** Only an exception in the [try] block yields the ERROR verdict. *)
Lemma detect_ppe_error_iff {Image} (model : Image -> Q -> Exc (list Result)) image thr :
  Verdict.compliance_status (detect_ppe model image thr) = "ERROR" <->
  exists e, detect_ppe_body model image thr = inl e.
Proof.
  unfold detect_ppe.
  destruct (detect_ppe_body model image thr) as [e|v] eqn:B.
  - split; [eauto|reflexivity].
  - split; [|intros [e He]; discriminate].
    apply detect_ppe_body_spec in B. destruct B as [_ [_ [_ [Hs _]]]].
    rewrite Hs. intro H. exfalso. exact (get_compliance_status_not_error _ _ H).
Qed.

Lemma violations_le_detections ds :
  (length (map violation_of (filter is_violation ds)) <= length ds)%nat.
Proof.
  rewrite length_map. induction ds as [|d ds IH]; simpl; [lia|].
  destruct (is_violation d); simpl; lia.
Qed.

Lemma Qsum_filter_partition (f : Detection.t -> bool) ds :
  Qsum (map Detection.confidence ds) ==
  Qsum (map Detection.confidence (filter f ds)) +
  Qsum (map Detection.confidence (filter (fun d => negb (f d)) ds)).
Proof.
  induction ds as [|d ds IH]; simpl; [reflexivity|].
  destruct (f d); simpl; rewrite IH; ring.
Qed.

Lemma fold_left_Qplus_acc (l : list Q) (a : Q) :
  fold_left Qplus l a == a + Qsum l.
Proof.
  revert a. induction l as [|x l IH]; intro a; simpl; [ring|].
  rewrite IH. ring.
Qed.

Lemma half_le n m :
  (inject_Z (Z.of_nat n) * (1 # 2) <= inject_Z (Z.of_nat m))%Q <-> (n <= 2 * m)%nat.
Proof.
  unfold Qle, Qmult, inject_Z; simpl. lia.
Qed.

Lemma get_compliance_status_rule ds vs :
  (length vs <= length ds)%nat ->
  (get_compliance_status ds vs = "COMPLIANT" <-> length vs = 0%nat) /\
  (get_compliance_status ds vs = "VIOLATION" <->
     (length ds <= 2 * length vs)%nat /\ (0 < length ds)%nat) /\
  (get_compliance_status ds vs = "PARTIAL" <->
     length vs <> 0%nat /\ ~ ((length ds <= 2 * length vs)%nat /\ (0 < length ds)%nat)).
Proof.
  intro Hle. unfold get_compliance_status.
  destruct (Nat.eqb_spec (length vs) 0) as [E|E].
  - rewrite E in *. repeat split; try discriminate; try lia; intros [? ?]; lia.
  - destruct (Qle_bool _ _) eqn:Q.
    + apply Qle_bool_iff, half_le in Q.
      repeat split; try discriminate; try lia; tauto.
    + assert (NQ : ~ (length ds <= 2 * length vs)%nat).
      { intro H. apply half_le, Qle_bool_iff in H. congruence. }
      repeat split; try discriminate; try lia; tauto.
Qed.

Lemma map_class_name_filter ds :
  map Detection.class_name (filter is_violation ds) =
  filter (fun c => py_in c Config.VIOLATION_CLASSES) (map Detection.class_name ds).
Proof.
  induction ds as [|d ds IH]; [reflexivity|].
  cbn [map filter]. unfold is_violation at 1.
  destruct (py_in (Detection.class_name d) Config.VIOLATION_CLASSES);
    cbn [map]; rewrite IH; reflexivity.
Qed.

(** A concrete model for the witnesses: the "image" is the list of
    results the model returns, or an inference that raises. *)
Definition echo_model (image : list Result) (_ : Q) : Exc (list Result) := ret image.
Definition failing_model (_ : list Result) (_ : Q) : Exc (list Result) :=
  raise "RuntimeError: CUDA out of memory".

Definition box_of (class_id : Z) (c : Q) : Box :=
  {| xyxy := (10, 20, 110, 220); conf := c; cls := class_id |}.

(** A helmet (class 2, confidence 0.9) and a [no_mask] (class 8, 0.8). *)
Definition helmet_and_no_mask : list Result :=
  [{| boxes := Some [box_of 2 (9 # 10); box_of 8 (8 # 10)] |}].

(** The severity table of the specification, with its MEDIUM default. *)
Definition spec_severity (s : string) : string :=
  match find (fun kv => String.eqb s (fst kv))
             [("no_helmet", "CRITICAL"); ("no_mask", "HIGH"); ("no-suit", "HIGH");
              ("no_goggles", "MEDIUM"); ("no_glove", "MEDIUM"); ("no_shoes", "MEDIUM")] with
  | Some kv => snd kv
  | None => "MEDIUM"
  end.

(** C1: in every verdict built by [get_compliance_status] (i.e. not the
    ERROR fallback), the status is COMPLIANT iff there are no violations,
    VIOLATION iff [violation_count >= 0.5 * total_detections] and there is
    at least one detection, and PARTIAL otherwise. *)
Theorem C1_compliance_status_rule {Image} (model : Image -> Q -> Exc (list Result)) image thr :
  Verdict.compliance_status (detect_ppe model image thr) <> "ERROR" ->
  let v := detect_ppe model image thr in
  (Verdict.compliance_status v = "COMPLIANT" <-> Verdict.violation_count v = 0%nat) /\
  (Verdict.compliance_status v = "VIOLATION" <->
     (inject_Z (Z.of_nat (Verdict.total_detections v)) * (1 # 2) <=
      inject_Z (Z.of_nat (Verdict.violation_count v)))%Q /\
     (0 < Verdict.total_detections v)%nat) /\
  (Verdict.compliance_status v = "PARTIAL" <->
     Verdict.violation_count v <> 0%nat /\
     ~ ((inject_Z (Z.of_nat (Verdict.total_detections v)) * (1 # 2) <=
         inject_Z (Z.of_nat (Verdict.violation_count v)))%Q /\
        (0 < Verdict.total_detections v)%nat)).
Proof.
  intros Hne v. unfold v in *. clear v.
  rewrite !half_le.
  destruct (detect_ppe_body model image thr) as [e|w] eqn:B.
  - exfalso. apply Hne, detect_ppe_error_iff. eauto.
  - unfold detect_ppe. rewrite B.
    apply detect_ppe_body_spec in B. destruct B as [Hv [Ht [Hc [Hs _]]]].
    rewrite Hs, Hc, Ht.
    apply get_compliance_status_rule.
    rewrite Hv. apply violations_le_detections.
Qed.

Lemma C1_witness :
  Verdict.compliance_status (detect_ppe echo_model helmet_and_no_mask (1 # 2)) <> "ERROR" /\
  Verdict.compliance_status (detect_ppe echo_model helmet_and_no_mask (1 # 2)) = "VIOLATION".
Proof.
  assert (Hne : Verdict.compliance_status (detect_ppe echo_model helmet_and_no_mask (1 # 2))
                <> "ERROR") by (vm_compute; discriminate).
  split; [exact Hne|].
  destruct (C1_compliance_status_rule echo_model helmet_and_no_mask (1 # 2) Hne)
    as [_ [HV _]].
  apply HV. split.
  - apply Qle_bool_imp_le. vm_compute. reflexivity.
  - vm_compute. lia.
Defined.

(** C2: the severity lookup is a total function of the class name that
    agrees with the specification's table: [no_helmet] is CRITICAL,
    [no_mask] and [no-suit] are HIGH, [no_goggles], [no_glove] and
    [no_shoes] are MEDIUM, and every other string is MEDIUM. *)
Theorem C2_severity_table (s : string) :
  get_violation_severity s = spec_severity s.
Proof.
  unfold get_violation_severity, spec_severity; simpl.
  repeat match goal with
         | |- context [String.eqb s ?k] =>
             let E := fresh "E" in
             destruct (String.eqb s k) eqn:E;
             [apply String.eqb_eq in E; subst s; reflexivity|]
         end; reflexivity.
Qed.

(** C3: when the inference step raises, [detect_ppe] returns the ERROR
    verdict with no detections, no violations, zero counts and average
    confidence 0.0; and the ERROR status arises only from an exception in
    the [try] block. *)
Theorem C3_inference_error_verdict {Image} (model : Image -> Q -> Exc (list Result))
    image thr (e : string) :
  model image thr = inl e ->
  let v := detect_ppe model image thr in
  (Verdict.detections v = [] /\ Verdict.violations v = [] /\
   Verdict.total_detections v = 0%nat /\ Verdict.violation_count v = 0%nat /\
   Verdict.compliance_status v = "ERROR" /\ Verdict.average_confidence v = 0) /\
  (forall image' thr',
     Verdict.compliance_status (detect_ppe model image' thr') = "ERROR" <->
     exists e', detect_ppe_body model image' thr' = inl e').
Proof.
  intros Hm v. split.
  - unfold v, detect_ppe, detect_ppe_body. rewrite Hm. simpl.
    repeat split.
  - intros. apply detect_ppe_error_iff.
Qed.

Lemma C3_witness :
  failing_model helmet_and_no_mask (1 # 2) = inl "RuntimeError: CUDA out of memory" /\
  Verdict.compliance_status (detect_ppe failing_model helmet_and_no_mask (1 # 2)) = "ERROR".
Proof.
  assert (Hm : failing_model helmet_and_no_mask (1 # 2) =
               inl "RuntimeError: CUDA out of memory") by reflexivity.
  split; [exact Hm|].
  destruct (C3_inference_error_verdict failing_model helmet_and_no_mask (1 # 2) _ Hm)
    as [[_ [_ [_ [_ [H _]]]]] _].
  exact H.
Defined.

(** C7: [average_confidence] is the mean of the confidences of all
    detections, those of violation classes and the others alike, and is
    exactly 0 when there are no detections. *)
Theorem C7_average_confidence {Image} (model : Image -> Q -> Exc (list Result)) image thr :
  let v := detect_ppe model image thr in
  Verdict.total_detections v = length (Verdict.detections v) /\
  (Verdict.detections v = [] -> Verdict.average_confidence v = 0) /\
  (Verdict.detections v <> [] ->
   Verdict.average_confidence v ==
   (Qsum (map Detection.confidence (filter is_violation (Verdict.detections v))) +
    Qsum (map Detection.confidence
                (filter (fun d => negb (is_violation d)) (Verdict.detections v)))) /
   inject_Z (Z.of_nat (Verdict.total_detections v))).
Proof.
  intro v. unfold v; clear v. unfold detect_ppe.
  destruct (detect_ppe_body model image thr) as [e|w] eqn:B.
  - simpl. split; [reflexivity|]. split; [intros _; reflexivity|]. intro H. contradiction H. reflexivity.
  - apply detect_ppe_body_spec in B. destruct B as [_ [Ht [_ [_ Ha]]]].
    rewrite Ht, Ha. split; [reflexivity|]. split.
    + intro E. rewrite E. reflexivity.
    + intro NE. destruct (Verdict.detections w) as [|d ds] eqn:E; [contradiction NE; reflexivity|].
      rewrite <- E. unfold np_mean. rewrite length_map.
      rewrite fold_left_Qplus_acc, <- Qsum_filter_partition.
      apply Qdiv_comp; [ring|reflexivity].
Qed.

Lemma C7_witness :
  Verdict.detections (detect_ppe echo_model helmet_and_no_mask (1 # 2)) <> [] /\
  Verdict.average_confidence (detect_ppe echo_model helmet_and_no_mask (1 # 2)) == 17 # 20.
Proof.
  assert (NE : Verdict.detections (detect_ppe echo_model helmet_and_no_mask (1 # 2)) <> [])
    by (vm_compute; discriminate).
  split; [exact NE|].
  destruct (C7_average_confidence echo_model helmet_and_no_mask (1 # 2)) as [_ [_ H]].
  rewrite (H NE). vm_compute. reflexivity.
Defined.

(** C10: the violations are exactly the detections whose class is in
    [VIOLATION_CLASSES], in order (each turned into its violation record);
    so [violation_count <= total_detections], and a class name
    [object_<id>] is never a violation class. *)
Theorem C10_violations_subsequence {Image} (model : Image -> Q -> Exc (list Result)) image thr :
  let v := detect_ppe model image thr in
  map Violation.violation_type (Verdict.violations v) =
    filter (fun c => py_in c Config.VIOLATION_CLASSES)
           (map Detection.class_name (Verdict.detections v)) /\
  Verdict.violations v = map violation_of (filter is_violation (Verdict.detections v)) /\
  (Verdict.violation_count v <= Verdict.total_detections v)%nat /\
  (forall id : string, py_in ("object_" ++ id) Config.VIOLATION_CLASSES = false).
Proof.
  intro v. unfold v; clear v.
  assert (Hobj : forall id : string, py_in ("object_" ++ id) Config.VIOLATION_CLASSES = false)
    by reflexivity.
  assert (Hsub : forall w : Verdict.t,
             Verdict.violations w = map violation_of (filter is_violation (Verdict.detections w)) ->
             map Violation.violation_type (Verdict.violations w) =
             filter (fun c => py_in c Config.VIOLATION_CLASSES)
                    (map Detection.class_name (Verdict.detections w))).
  { intros w Hw. rewrite Hw, map_map. apply map_class_name_filter. }
  unfold detect_ppe.
  destruct (detect_ppe_body model image thr) as [e|w] eqn:B.
  - simpl. split; [reflexivity|]. split; [reflexivity|]. split; [lia|exact Hobj].
  - apply detect_ppe_body_spec in B. destruct B as [Hv [Ht [Hc _]]].
    split; [apply Hsub, Hv|]. split; [exact Hv|]. split; [|exact Hobj].
    rewrite Hc, Ht, Hv. apply violations_le_detections.
Qed.

End PPEProofs.

Arguments FaceRecognitionSystem.match_faces {Loc}.
Arguments FaceRecognitionSystem.encode_face_body {Image Loc}.
Arguments FaceRecognitionSystem.encode_face_from_image {Image Loc}.
Arguments FaceRecognitionSystem.recognize_face_body {Image Loc}.
Arguments FaceRecognitionSystem.recognize_face {Image Loc}.

(** * Properties of the face matcher *)

Module FaceProofs.
Import FaceRecognitionSystem.
Local Open Scope list_scope.

Lemma py_list_get_nth {A} (l : list A) (i : nat) (a : A) :
  nth_error l i = Some a -> py_list_get l (Z.of_nat i) = inr a.
Proof.
  intro H. assert (Hi : (i < length l)%nat) by (apply nth_error_Some; congruence).
  unfold py_list_get.
  replace (Z.of_nat i <? 0)%Z with false by (symmetry; apply Z.ltb_ge; lia).
  replace ((Z.of_nat i <? 0) || (Z.of_nat (length l) <=? Z.of_nat i))%Z with false
    by (symmetry; apply orb_false_iff; split; [apply Z.ltb_ge | apply Z.leb_gt]; lia).
  rewrite Nat2Z.id, H. reflexivity.
Qed.

Lemma nth_error_snoc {A} (pre : list A) (x : A) j y :
  nth_error (pre ++ [x]) j = Some y ->
  nth_error pre j = Some y \/ (j = length pre /\ y = x).
Proof.
  intro H. destruct (Nat.lt_ge_cases j (length pre)) as [L|L].
  - left. rewrite nth_error_app1 in H; assumption.
  - right. rewrite nth_error_app2 in H by assumption.
    destruct (j - length pre)%nat eqn:E; simpl in H.
    + inversion H. split; [lia|reflexivity].
    + destruct n; discriminate.
Qed.

Lemma argmin_aux_spec xs : forall pre best bv,
  nth_error pre best = Some bv ->
  (forall j y, nth_error pre j = Some y -> bv <= y) ->
  (forall j y, (j < best)%nat -> nth_error pre j = Some y -> bv < y) ->
  exists m,
    nth_error (pre ++ xs) (argmin_aux xs (length pre) best bv) = Some m /\
    (forall j y, nth_error (pre ++ xs) j = Some y -> m <= y) /\
    (forall j y, (j < argmin_aux xs (length pre) best bv)%nat ->
                 nth_error (pre ++ xs) j = Some y -> m < y).
Proof.
  induction xs as [|x xs IH]; intros pre best bv Hb Hall Hfirst.
  - rewrite app_nil_r. exists bv. simpl. auto.
  - assert (Hlen : length (pre ++ [x]) = S (length pre))
      by (rewrite length_app; simpl; lia).
    assert (Happ : (pre ++ [x]) ++ xs = pre ++ x :: xs) by (rewrite <- app_assoc; reflexivity).
    assert (Hbl : (best < length pre)%nat) by (apply nth_error_Some; congruence).
    simpl. destruct (Qle_bool bv x) eqn:L; simpl.
    + apply Qle_bool_iff in L.
      destruct (IH (pre ++ [x]) best bv) as [m Hm].
      * rewrite nth_error_app1; assumption.
      * intros j y Hj. apply nth_error_snoc in Hj.
        destruct Hj as [Hj|[_ ->]]; [exact (Hall j y Hj)|exact L].
      * intros j y Hjb Hj. apply nth_error_snoc in Hj.
        destruct Hj as [Hj|[Hj _]]; [exact (Hfirst j y Hjb Hj)|lia].
      * rewrite Hlen, Happ in Hm. exists m. exact Hm.
    + assert (Lt : x < bv) by (apply Qnot_le_lt; intro C; apply Qle_bool_iff in C; congruence).
      destruct (IH (pre ++ [x]) (length pre) x) as [m Hm].
      * rewrite nth_error_app2 by lia. rewrite Nat.sub_diag. reflexivity.
      * intros j y Hj. apply nth_error_snoc in Hj.
        destruct Hj as [Hj|[_ ->]]; [|apply Qle_refl].
        apply Qlt_le_weak, (Qlt_le_trans _ bv); [exact Lt|exact (Hall j y Hj)].
      * intros j y Hjb Hj. apply nth_error_snoc in Hj.
        destruct Hj as [Hj|[Hj _]]; [|lia].
        apply (Qlt_le_trans _ bv); [exact Lt|exact (Hall j y Hj)].
      * rewrite Hlen, Happ in Hm. exists m. exact Hm.
Qed.

(** [np.argmin] returns the first index of a minimum. *)
Lemma np_argmin_spec (l : list Q) :
  l <> [] ->
  exists i m,
    np_argmin l = inr i /\ nth_error l i = Some m /\
    (forall j y, nth_error l j = Some y -> m <= y) /\
    (forall j y, (j < i)%nat -> nth_error l j = Some y -> m < y).
Proof.
  destruct l as [|x xs]; [contradiction|intros _].
  destruct (argmin_aux_spec xs [x] 0 x) as [m [H1 [H2 H3]]].
  - reflexivity.
  - intros [|j] y Hj; simpl in Hj; [inversion Hj; apply Qle_refl|destruct j; discriminate].
  - intros j y Hj; lia.
  - exists (argmin_aux xs 1 0 x), m. simpl in H1, H2, H3. auto.
Qed.

Lemma nth_error_combine_In {A B} (la : list A) (lb : list B) i a b :
  nth_error la i = Some a -> nth_error lb i = Some b -> In (a, b) (combine la lb).
Proof.
  revert lb i. induction la as [|x la IH]; intros lb i Ha Hb; [destruct i; discriminate|].
  destruct lb as [|y lb]; [destruct i; discriminate|].
  destruct i as [|i]; simpl in *.
  - inversion Ha; inversion Hb; left; reflexivity.
  - right. exact (IH lb i Ha Hb).
Qed.

Lemma py_list_get_inv {A} (l : list A) (i : nat) (a : A) :
  py_list_get l (Z.of_nat i) = inr a -> nth_error l i = Some a.
Proof.
  unfold py_list_get.
  replace (Z.of_nat i <? 0)%Z with false by (symmetry; apply Z.ltb_ge; lia).
  destruct ((Z.of_nat i <? 0) || (Z.of_nat (length l) <=? Z.of_nat i))%Z; [discriminate|].
  rewrite Nat2Z.id. destruct (nth_error l i); [|discriminate].
  intro H; inversion H; reflexivity.
Qed.

Lemma combine_snoc {A B} (la : list A) (lb : list B) a b :
  length la = length lb -> combine (la ++ [a]) (lb ++ [b]) = combine la lb ++ [(a, b)].
Proof.
  revert lb. induction la as [|x la IH]; intros [|y lb] H; simpl in *; try discriminate.
  - reflexivity.
  - rewrite IH by lia. reflexivity.
Qed.

Section Lib.

Variable Image Loc : Type.
Variable to_rgb : Image -> Exc Image.
Variable face_locations : Image -> Exc (list Loc).
Variable face_encodings : Image -> list Loc -> Exc (list Enc).
Variable euclid : Enc -> Enc -> Q.
Variable json_loads_array : string -> Exc Enc.

(** The registry the specification expects from [reload]: one
    (username, embedding) pair per employee whose stored encoding is
    present, non-empty and parses, in order. *)
Definition enrolled (employees : list Employee) : list (string * Enc) :=
  flat_map (fun emp =>
              match face_encoding emp with
              | Some s =>
                  if String.eqb s "" then []
                  else match json_loads_array s with
                       | inr e => [(username emp, e)]
                       | inl _ => []
                       end
              | None => []
              end) employees.

Lemma load_loop_spec employees : forall encs names,
  length names = length encs ->
  combine (snd (load_loop json_loads_array employees encs names))
          (fst (load_loop json_loads_array employees encs names)) =
    combine names encs ++ enrolled employees /\
  length (snd (load_loop json_loads_array employees encs names)) =
    length (fst (load_loop json_loads_array employees encs names)).
Proof.
  induction employees as [|emp rest IH]; intros encs names Hl; simpl.
  - rewrite app_nil_r. auto.
  - unfold truthy. destruct (face_encoding emp) as [s|]; simpl.
    + destruct (String.eqb s "") eqn:E; simpl.
      * apply IH; assumption.
      * destruct (json_loads_array s) as [err|e]; simpl.
        -- apply IH; assumption.
        -- destruct (IH (encs ++ [e]) (names ++ [username emp])) as [H1 H2].
           { rewrite !length_app; simpl; lia. }
           rewrite H1, combine_snoc by assumption. rewrite <- app_assoc. auto.
    + apply IH; assumption.
Qed.

Lemma match_faces_empty_registry (self : FRS) (locs : list Loc) encs :
  known_face_encodings self = [] -> match_faces euclid self locs encs = inr None.
Proof.
  intro H. induction encs as [|q encs IH]; [reflexivity|].
  simpl. unfold compare_faces, face_distance. rewrite H. simpl. exact IH.
Qed.

Lemma match_faces_some (self : FRS) (locs : list Loc) encs m msg :
  match_faces euclid self locs encs = inr (Some (m, msg)) ->
  exists i e, nth_error (known_face_names self) i = Some (FaceMatch.username m) /\
              nth_error (known_face_encodings self) i = Some e.
Proof.
  induction encs as [|q encs IH]; simpl; [discriminate|].
  destruct (existsb _ _); [|exact IH].
  destruct (np_argmin _) as [err|i]; simpl; [discriminate|].
  destruct (py_list_get _ (Z.of_nat i)) as [err|b] eqn:Hb; simpl; [discriminate|].
  destruct b; [|exact IH].
  destruct (py_list_get (face_distance _ _ _) _) as [err|d]; simpl; [discriminate|].
  destruct (py_list_get (known_face_names self) _) as [err|name] eqn:Hn; simpl; [discriminate|].
  destruct (py_list_get locs 0) as [err|l0]; simpl; [discriminate|].
  intro H. inversion H; subst; clear H. simpl.
  apply py_list_get_inv in Hb, Hn.
  unfold compare_faces, face_distance in Hb. rewrite map_map, nth_error_map in Hb.
  destruct (nth_error (known_face_encodings self) i) as [e|] eqn:He; [|discriminate].
  exists i, e. auto.
Qed.

Lemma recognize_face_some (self : FRS) image m msg :
  recognize_face to_rgb face_locations face_encodings euclid self image = (Some m, msg) ->
  exists locs encs msg', match_faces euclid self locs encs = inr (Some (m, msg')).
Proof.
  unfold recognize_face, recognize_face_body.
  destruct (to_rgb image) as [err|image']; simpl; [discriminate|].
  destruct (face_locations image') as [err|locs]; simpl; [discriminate|].
  destruct (Nat.eqb (length locs) 0); [discriminate|].
  destruct (face_encodings image' locs) as [err|encs]; simpl; [discriminate|].
  destruct (Nat.eqb (length encs) 0); [discriminate|].
  destruct (match_faces euclid self locs encs) as [err|[[m' msg']|]] eqn:M; simpl;
    try discriminate.
  intro H. inversion H; subst. eauto.
Qed.

Lemma match_faces_hit (self : FRS) (l0 : Loc) (ls : list Loc) (q : Enc) rest j0 e0 :
  length (known_face_names self) = length (known_face_encodings self) ->
  nth_error (known_face_encodings self) j0 = Some e0 ->
  euclid e0 q <= tolerance self ->
  exists i e name,
    nth_error (known_face_encodings self) i = Some e /\
    nth_error (known_face_names self) i = Some name /\
    euclid e q <= tolerance self /\
    (forall j e', nth_error (known_face_encodings self) j = Some e' ->
                  euclid e' q <= tolerance self -> euclid e q <= euclid e' q) /\
    (forall j e', (j < i)%nat -> nth_error (known_face_encodings self) j = Some e' ->
                  euclid e q < euclid e' q) /\
    match_faces euclid self (l0 :: ls) (q :: rest) =
      inr (Some ({| FaceMatch.username := name;
                    FaceMatch.confidence := 1 - euclid e q;
                    FaceMatch.face_location := l0 |},
                 "Face recognized successfully")).
Proof.
  intros Hlen Hj0 Htol.
  set (D := face_distance euclid (known_face_encodings self) q).
  assert (HD : forall j, nth_error D j = option_map (fun e => euclid e q)
                                          (nth_error (known_face_encodings self) j))
    by (intro j; unfold D, face_distance; apply nth_error_map).
  assert (NE : D <> []).
  { intro E. specialize (HD j0). rewrite E, Hj0, nth_error_nil in HD. discriminate. }
  destruct (np_argmin_spec D NE) as [i [m [Hi [Hm [Hmin Hfirst]]]]].
  rewrite HD in Hm.
  destruct (nth_error (known_face_encodings self) i) as [e|] eqn:He; [|discriminate].
  simpl in Hm. inversion Hm; subst m; clear Hm.
  assert (Hil : (i < length (known_face_names self))%nat)
    by (rewrite Hlen; apply nth_error_Some; congruence).
  destruct (nth_error (known_face_names self) i) as [name|] eqn:Hn;
    [|apply nth_error_Some in Hil; contradiction].
  assert (Hle : forall j e', nth_error (known_face_encodings self) j = Some e' ->
                             euclid e q <= euclid e' q).
  { intros j e' Hj. apply (Hmin j). rewrite HD, Hj. reflexivity. }
  assert (Hetol : euclid e q <= tolerance self)
    by (apply (Qle_trans _ (euclid e0 q)); [exact (Hle j0 e0 Hj0)|exact Htol]).
  exists i, e, name. split; [exact He|]. split; [exact Hn|]. split; [exact Hetol|].
  split; [intros j e' Hj _; exact (Hle j e' Hj)|].
  split; [intros j e' Hji Hj; apply (Hfirst j); [exact Hji|rewrite HD, Hj; reflexivity]|].
  cbn [match_faces].
  assert (Hex : existsb (fun b => b) (compare_faces euclid (known_face_encodings self) q
                                        (tolerance self)) = true).
  { apply existsb_exists. exists true. split; [|reflexivity].
    apply (nth_error_In _ j0). unfold compare_faces.
    rewrite nth_error_map. fold D. rewrite HD, Hj0. simpl.
    apply Qle_bool_iff in Htol. rewrite Htol. reflexivity. }
  rewrite Hex. fold D. rewrite Hi. cbn [bind].
  rewrite (py_list_get_nth _ i true).
  2:{ unfold compare_faces. rewrite nth_error_map. fold D. rewrite HD, He. simpl.
      apply Qle_bool_iff in Hetol. rewrite Hetol. reflexivity. }
  cbn [bind].
  rewrite (py_list_get_nth D i (euclid e q)) by (rewrite HD, He; reflexivity).
  cbn [bind]. rewrite (py_list_get_nth _ i name Hn). cbn [bind].
  unfold py_list_get at 1. simpl. reflexivity.
Qed.

(** C4: when the image's (first) face embedding [q] is within [tolerance]
    of at least one enrolled embedding, [recognize_face] returns the
    enrollment at minimum distance among those within tolerance (the first
    one in registry order among equals), with confidence [1 - distance]. *)
Theorem C4_closest_match (self : FRS) image image' (l0 : Loc) ls (q : Enc) rest j0 e0 :
  length (known_face_names self) = length (known_face_encodings self) ->
  to_rgb image = inr image' ->
  face_locations image' = inr (l0 :: ls) ->
  face_encodings image' (l0 :: ls) = inr (q :: rest) ->
  nth_error (known_face_encodings self) j0 = Some e0 ->
  euclid e0 q <= tolerance self ->
  exists i e name,
    nth_error (known_face_encodings self) i = Some e /\
    nth_error (known_face_names self) i = Some name /\
    euclid e q <= tolerance self /\
    (forall j e', nth_error (known_face_encodings self) j = Some e' ->
                  euclid e' q <= tolerance self -> euclid e q <= euclid e' q) /\
    (forall j e', (j < i)%nat -> nth_error (known_face_encodings self) j = Some e' ->
                  euclid e q < euclid e' q) /\
    recognize_face to_rgb face_locations face_encodings euclid self image =
      (Some {| FaceMatch.username := name;
               FaceMatch.confidence := 1 - euclid e q;
               FaceMatch.face_location := l0 |},
       "Face recognized successfully").
Proof.
  intros Hlen Hrgb Hloc Henc Hj0 Htol.
  destruct (match_faces_hit self l0 ls q rest j0 e0 Hlen Hj0 Htol)
    as (i & e & name & H1 & H2 & H3 & H4 & H5 & H6).
  exists i, e, name. repeat (split; [assumption|]).
  unfold recognize_face, recognize_face_body.
  rewrite Hrgb. cbn [bind]. rewrite Hloc. cbn [bind length Nat.eqb].
  rewrite Henc. cbn [bind length Nat.eqb]. rewrite H6. reflexivity.
Qed.

(** C6: against an empty registry, [recognize_face] on an image where at
    least one face is located (the library computing one embedding per
    located face) returns the not-recognized outcome. *)
Theorem C6_empty_registry_not_recognized (self : FRS) image image' (l0 : Loc) ls encs :
  known_face_encodings self = [] ->
  to_rgb image = inr image' ->
  face_locations image' = inr (l0 :: ls) ->
  face_encodings image' (l0 :: ls) = inr encs ->
  length encs = length (l0 :: ls) ->
  recognize_face to_rgb face_locations face_encodings euclid self image =
    (None, "Face not recognized").
Proof.
  intros Hempty Hrgb Hloc Henc Hlen.
  unfold recognize_face, recognize_face_body.
  rewrite Hrgb. cbn [bind]. rewrite Hloc. cbn [bind length Nat.eqb].
  rewrite Henc. cbn [bind]. rewrite Hlen. cbn [length Nat.eqb].
  rewrite (match_faces_empty_registry self (l0 :: ls) encs Hempty). reflexivity.
Qed.

(** C8: [load_known_faces] rebuilds the registry from the employees alone:
    it holds exactly the (username, embedding) pairs of the employees whose
    stored encoding is present and parses, in order; the prior registry
    leaves no trace; and a later [recognize_face] can only return one of
    these usernames. *)
Theorem C8_reload_replaces_registry (self : FRS) (employees : list Employee) :
  let r := load_known_faces json_loads_array self employees in
  combine (known_face_names r) (known_face_encodings r) = enrolled employees /\
  length (known_face_names r) = length (known_face_encodings r) /\
  tolerance r = tolerance self /\
  (forall self' : FRS, tolerance self' = tolerance self ->
     load_known_faces json_loads_array self' employees = r) /\
  (forall image m msg,
     recognize_face to_rgb face_locations face_encodings euclid r image = (Some m, msg) ->
     exists e, In (FaceMatch.username m, e) (enrolled employees)).
Proof.
  intro r.
  destruct (load_loop_spec employees [] [] eq_refl) as [Hc Hl].
  assert (Hc' : combine (known_face_names r) (known_face_encodings r) = enrolled employees)
    by exact Hc.
  split; [exact Hc'|]. split; [exact Hl|]. split; [reflexivity|]. split.
  - intros self' Ht. unfold r, load_known_faces. rewrite Ht. reflexivity.
  - intros image m msg H.
    destruct (recognize_face_some r image m msg H) as (locs & encs & msg' & M).
    destruct (match_faces_some r locs encs m msg' M) as (i & e & Hn & He).
    exists e. rewrite <- Hc'. exact (nth_error_combine_In _ _ i _ _ Hn He).
Qed.

(** The outcomes [encode_face_from_image] is described to have. *)
Definition described_encode_outcome (r : option Enc * string) : Prop :=
  r = (None, "No face detected in the image") \/
  r = (None, "Multiple faces detected. Please ensure only one face is visible") \/
  r = (None, "Could not extract face features") \/
  (exists e, r = (Some e, "Face encoded successfully")).

(** The [try] block of [encode_face_from_image] raises with [msg]: the
    image conversion raises, or [face_locations] does, or, with exactly one
    face located, [face_encodings] does. *)
Definition encode_raises (image : Image) (msg : string) : Prop :=
  to_rgb image = inl msg \/
  exists image', to_rgb image = inr image' /\
    (face_locations image' = inl msg \/
     exists l, face_locations image' = inr [l] /\ face_encodings image' [l] = inl msg).

(** C5 (as amended): [encode_face_from_image] has exactly five outcomes,
    each tied to its condition: zero faces located gives the no-face reason,
    more than one the multiple-faces reason, one face without an embedding
    the feature-extraction reason, one face with an embedding succeeds with
    the library's embedding of it, and an exception raised by the image
    conversion or the face library gives no embedding with the reason
    [Error processing face: <message>].  One of these five always happens,
    and the five reasons are distinct. *)
Theorem C5_encode_outcomes (image : Image) :
  let r := encode_face_from_image to_rgb face_locations face_encodings image in
  (forall image', to_rgb image = inr image' -> face_locations image' = inr [] ->
     r = (None, "No face detected in the image")) /\
  (forall image' locs, to_rgb image = inr image' -> face_locations image' = inr locs ->
     (1 < length locs)%nat ->
     r = (None, "Multiple faces detected. Please ensure only one face is visible")) /\
  (forall image' l, to_rgb image = inr image' -> face_locations image' = inr [l] ->
     face_encodings image' [l] = inr [] -> r = (None, "Could not extract face features")) /\
  (forall image' l e es, to_rgb image = inr image' -> face_locations image' = inr [l] ->
     face_encodings image' [l] = inr (e :: es) -> r = (Some e, "Face encoded successfully")) /\
  (forall msg, encode_raises image msg ->
     r = (None, String.append "Error processing face: " msg)) /\
  ((exists image', to_rgb image = inr image' /\ face_locations image' = inr [] /\
      r = (None, "No face detected in the image")) \/
   (exists image' locs, to_rgb image = inr image' /\ face_locations image' = inr locs /\
      (1 < length locs)%nat /\
      r = (None, "Multiple faces detected. Please ensure only one face is visible")) \/
   (exists image' l, to_rgb image = inr image' /\ face_locations image' = inr [l] /\
      face_encodings image' [l] = inr [] /\ r = (None, "Could not extract face features")) \/
   (exists image' l e es, to_rgb image = inr image' /\ face_locations image' = inr [l] /\
      face_encodings image' [l] = inr (e :: es) /\ r = (Some e, "Face encoded successfully")) \/
   (exists msg, encode_raises image msg /\
      r = (None, String.append "Error processing face: " msg))) /\
  NoDup ["No face detected in the image";
         "Multiple faces detected. Please ensure only one face is visible";
         "Could not extract face features"; "Face encoded successfully"] /\
  (forall msg, ~ described_encode_outcome (None, String.append "Error processing face: " msg)).
Proof.
  intro r. unfold r, encode_face_from_image, encode_face_body.
  split; [|split; [|split; [|split; [|split; [|split; [|split]]]]]].
  - intros image' Hr Hl. rewrite Hr; cbn [bind]; rewrite Hl; reflexivity.
  - intros image' locs Hr Hl Hlen. rewrite Hr; cbn [bind]; rewrite Hl; cbn [bind].
    destruct locs as [|l [|l' ls]]; cbn in Hlen |- *; [lia|lia|reflexivity].
  - intros image' l Hr Hl He. rewrite Hr; cbn [bind]; rewrite Hl; cbn [bind length Nat.eqb Nat.ltb Nat.leb].
    rewrite He. reflexivity.
  - intros image' l e es Hr Hl He. rewrite Hr; cbn [bind]; rewrite Hl; cbn [bind length Nat.eqb Nat.ltb Nat.leb].
    rewrite He. reflexivity.
  - intros msg [Hr|(image' & Hr & [Hl|(l & Hl & He)])]; rewrite Hr; cbn [bind];
      [reflexivity|rewrite Hl; reflexivity|].
    rewrite Hl. cbn [bind length Nat.eqb Nat.ltb Nat.leb]. rewrite He. reflexivity.
  - destruct (to_rgb image) as [err|image'] eqn:Hr; cbn [bind].
    { right; right; right; right. exists err. split; [left; exact Hr|reflexivity]. }
    destruct (face_locations image') as [err|locs] eqn:Hl; cbn [bind].
    { right; right; right; right. exists err.
      split; [right; exists image'; auto|reflexivity]. }
    destruct locs as [|l [|l' ls]]; cbn [length Nat.eqb Nat.ltb Nat.leb].
    + left. eauto.
    + destruct (face_encodings image' [l]) as [err|[|e es]] eqn:He; cbn [bind].
      * right; right; right; right. exists err.
        split; [right; exists image'; split; [exact Hr|right; exists l; auto]|reflexivity].
      * right; right; left. eauto 7.
      * right; right; right; left. exists image', l, e, es. auto.
    + right; left. exists image', (l :: l' :: ls). repeat split; auto. simpl; lia.
  - repeat constructor; cbn [In]; intuition discriminate.
  - intros msg [H|[H|[H|[e H]]]]; discriminate.
Qed.

End Lib.

(** A concrete face library for the witnesses: an image is either one the
    library rejects ([None], e.g. a four-channel PNG) or the list of its faces
    (location in [(top, right, bottom, left)] form, and embedding); distances
    are L1 distances. *)
Definition ToyLoc : Type := (Z * Z * Z * Z)%type.
Definition ToyImage : Type := option (list (ToyLoc * Enc)).

Definition unsupported : string :=
  "Unsupported image type, must be 8bit gray or RGB image.".

Definition toy_to_rgb (image : ToyImage) : Exc ToyImage := ret image.

Definition toy_face_locations (image : ToyImage) : Exc (list ToyLoc) :=
  match image with
  | None => raise unsupported
  | Some faces => ret (map fst faces)
  end.

Definition toy_face_encodings (image : ToyImage) (locs : list ToyLoc) : Exc (list Enc) :=
  match image with
  | None => raise unsupported
  | Some faces => ret (map snd (firstn (length locs) faces))
  end.

Definition l1_distance (a b : Enc) : Q :=
  fold_right Qplus 0 (map (fun xy => Qabs (fst xy - snd xy)) (combine a b)).

Definition alice_bob : FRS :=
  {| known_face_encodings := [[0]; [1]];
     known_face_names := ["alice"; "bob"];
     tolerance := 6 # 10 |}.

Definition face_loc : ToyLoc := (10, 60, 60, 10)%Z.

(** One face, at distance 0.4 from alice's embedding and 0.6 from bob's. *)
Definition one_face : ToyImage := Some [(face_loc, [4 # 10])].

(** Both enrollments are within tolerance 0.6; alice, the closer, wins. *)
Example recognize_alice :
  fst (recognize_face toy_to_rgb toy_face_locations toy_face_encodings l1_distance
         alice_bob one_face) =
  Some {| FaceMatch.username := "alice";
          FaceMatch.confidence := 1 - l1_distance [0] [4 # 10];
          FaceMatch.face_location := face_loc |}.
Proof. vm_compute. reflexivity. Qed.

Lemma C4_witness :
  exists name d,
    recognize_face toy_to_rgb toy_face_locations toy_face_encodings l1_distance
      alice_bob one_face =
      (Some {| FaceMatch.username := name;
               FaceMatch.confidence := 1 - d;
               FaceMatch.face_location := face_loc |},
       "Face recognized successfully") /\
    d <= 6 # 10.
Proof.
  assert (Htol : l1_distance [0] [4 # 10] <= tolerance alice_bob)
    by (apply Qle_bool_imp_le; vm_compute; reflexivity).
  destruct (C4_closest_match ToyImage ToyLoc toy_to_rgb toy_face_locations
              toy_face_encodings l1_distance alice_bob one_face one_face face_loc []
              [4 # 10] [] 0 [0] eq_refl eq_refl eq_refl eq_refl eq_refl Htol)
    as (i & e & name & _ & _ & Ht & _ & _ & Hr).
  exists name, (l1_distance e [4 # 10]). split; assumption.
Defined.

Lemma C6_witness :
  recognize_face toy_to_rgb toy_face_locations toy_face_encodings l1_distance
    init one_face = (None, "Face not recognized").
Proof.
  exact (C6_empty_registry_not_recognized ToyImage ToyLoc toy_to_rgb toy_face_locations
           toy_face_encodings l1_distance init one_face one_face face_loc [] [[4 # 10]]
           eq_refl eq_refl eq_refl eq_refl eq_refl).
Defined.

(** C5, as stated, fails: an image the face library rejects (a four-channel
    image is passed to [face_locations] unconverted) yields the generic
    [Error processing face: ...] outcome, none of the four described ones. *)
Lemma C5_counterexample :
  encode_face_from_image toy_to_rgb toy_face_locations toy_face_encodings (None : ToyImage) =
    (None, "Error processing face: Unsupported image type, must be 8bit gray or RGB image.") /\
  ~ described_encode_outcome
      (encode_face_from_image toy_to_rgb toy_face_locations toy_face_encodings
         (None : ToyImage)).
Proof.
  split; [reflexivity|].
  vm_compute. intros [H|[H|[H|[e H]]]]; discriminate.
Qed.

End FaceProofs.

(** * Properties of the drawing utilities *)

Module DrawProofs.
Import Drawing.
Local Open Scope list_scope.

Lemma nth_error_heap_set_other h p b p' :
  p' <> p -> nth_error (heap_set h p b) p' = nth_error h p'.
Proof.
  revert p p'. induction h as [|c h IH]; intros p p' Hne; [reflexivity|].
  destruct p as [|p], p' as [|p']; simpl; try reflexivity; [contradiction Hne; reflexivity|].
  apply IH. lia.
Qed.

Section Generic.

Variable cv2_rectangle : Buffer -> Z * Z -> Z * Z -> Color -> Z -> Buffer.
Variable cv2_putText : Buffer -> string -> Z * Z -> Q -> Color -> Z -> Buffer.
Variable cv2_getTextSize : string -> Q -> Z -> Z * Z.
Variable fmt2 : Q -> string.

Lemma draw_loop_other detections : forall h p h' p',
  draw_loop cv2_rectangle cv2_putText cv2_getTextSize fmt2 h p detections = inr h' ->
  p' <> p -> nth_error h' p' = nth_error h p'.
Proof.
  induction detections as [|d ds IH]; intros h p h' p' H Hne; simpl in H.
  - inversion H; reflexivity.
  - destruct (PPEDetector.Detection.bbox d) as [|x1 [|y1 [|x2 [|y2 [|]]]]];
      try discriminate.
    rewrite (IH _ _ _ _ H Hne).
    unfold putText_at, rectangle_at.
    rewrite !nth_error_heap_set_other by exact Hne. reflexivity.
Qed.

(** [draw_detections] draws into a fresh copy and leaves the caller's
    array untouched. *)
Lemma draw_detections_copy h p detections h' q :
  draw_detections cv2_rectangle cv2_putText cv2_getTextSize fmt2 h (NdArray p) detections
    = inr (h', q) ->
  (p < length h)%nat ->
  q = length h /\ nth_error h' p = nth_error h p.
Proof.
  unfold draw_detections. cbn [bind].
  destruct (draw_loop _ _ _ _ _ _ _) as [e|h2] eqn:D; cbn [bind]; [discriminate|].
  intros H Hp. inversion H; subst; clear H. split; [reflexivity|].
  rewrite (draw_loop_other _ _ _ _ p D) by lia.
  apply nth_error_app1. exact Hp.
Qed.

(** [draw_face_rectangle] returns the array it was given, with the
    drawing written into it. *)
Lemma draw_face_rectangle_in_place h p face_location name confidence :
  snd (draw_face_rectangle cv2_rectangle cv2_putText fmt2 h p face_location name confidence)
    = p.
Proof.
  unfold draw_face_rectangle. destruct face_location as [[[t r] b] l]. reflexivity.
Qed.

End Generic.

(** A 3x3 black image, held by the caller at address 0. *)
Definition black3 : Buffer := repeat (repeat (0, 0, 0)%Z 3) 3.

Definition no_helmet_box : PPEDetector.Detection.t :=
  {| PPEDetector.Detection.class_name := "no_helmet";
     PPEDetector.Detection.confidence := 9 # 10;
     PPEDetector.Detection.bbox := [0; 0; 2; 2];
     PPEDetector.Detection.width := 2;
     PPEDetector.Detection.height := 2 |}.

(** C9: [draw_detections] leaves the caller's array unchanged and returns a
    copy, but [draw_face_rectangle] draws into the caller's array itself and
    returns it: with the raster model of OpenCV, the caller's 3x3 image at
    address 0 is changed. *)
Theorem C9_draw_face_rectangle_mutates_caller_image :
  (exists h' q,
     draw_detections raster_rectangle raster_putText raster_getTextSize raster_fmt2
       [black3] (NdArray 0) [no_helmet_box] = inr (h', q) /\
     q <> 0%nat /\ nth_error h' 0 = Some black3) /\
  snd (draw_face_rectangle raster_rectangle raster_putText raster_fmt2
         [black3] 0 (0, 2, 2, 0)%Z "alice" (6 # 10)) = 0%nat /\
  nth_error (fst (draw_face_rectangle raster_rectangle raster_putText raster_fmt2
                    [black3] 0 (0, 2, 2, 0)%Z "alice" (6 # 10))) 0 <> Some black3.
Proof.
  split; [|split].
  - eexists; eexists. split; [reflexivity|]. split; [discriminate|reflexivity].
  - reflexivity.
  - vm_compute. discriminate.
Qed.

End DrawProofs.

(** * The dashboard statistics of [src/database.py] *)

From Stdlib Require Import Qround Lqa.

(** Python's [round(x, 2)] on the exact value of [x]: the nearest multiple
    of 1/100, a tie going to the even neighbour. *)
Definition py_round2 (x : Q) : Q :=
  let y := x * 100 in
  let f := Qfloor y in
  let d := y - inject_Z f in
  let n := if negb (Qle_bool (1 # 2) d) then f
           else if negb (Qle_bool d (1 # 2)) then (f + 1)%Z
           else if Z.even f then f else (f + 1)%Z in
  inject_Z n / 100.

Module Database.

(** The columns of the [ppe_detections] table; [compliance_status] is
    nullable. *)
Record PPEDetection := {
  employee_id : option Z;
  image_path : string;
  total_detections : Z;
  violation_count : Z;
  compliance_status : option string;
  confidence_score : option Q;
  processed_by : option string }.

(** The dictionary returned by [get_compliance_stats]. *)
Record ComplianceStats := {
  stats_total_detections : nat;
  stats_violation_count : nat;
  stats_compliance_rate : Q }.

(** [PPEDetection.compliance_status == 'VIOLATION'] in SQL: a NULL status
    does not match. *)
Definition is_violation_row (d : PPEDetection) : bool :=
  match compliance_status d with
  | Some s => String.eqb s "VIOLATION"
  | None => false
  end.

(** The body of the [try]; each [session.query(...).count()] reads the
    table, and a read may raise.  The rate is computed exactly in [Q]; the
    code's float [(t - v) / t * 100] can land on the other side of a
    rounding tie (67 violations of 160: 58.12 here, 58.13 in floats), so
    the rate is a model of the float up to that last digit. *)
Definition get_compliance_stats_body (table : Exc (list PPEDetection))
  : Exc ComplianceStats :=
  rows <- table ;;
  let total_detections := length rows in
  rows' <- table ;;
  let violation_detections := length (filter is_violation_row rows') in
  let compliance_rate :=
    if (0 <? total_detections)%nat
    then inject_Z (Z.of_nat total_detections - Z.of_nat violation_detections)
         / inject_Z (Z.of_nat total_detections) * 100
    else 0 in
  ret {| stats_total_detections := total_detections;
         stats_violation_count := violation_detections;
         stats_compliance_rate := py_round2 compliance_rate |}.

Definition get_compliance_stats (table : Exc (list PPEDetection)) : ComplianceStats :=
  match get_compliance_stats_body table with
  | inr s => s
  | inl _ => {| stats_total_detections := 0;
                stats_violation_count := 0;
                stats_compliance_rate := 0 |}
  end.

End Database.

Module DatabaseProofs.
Import Database.
Local Open Scope list_scope.

Lemma negb_Qle_bool a b : negb (Qle_bool a b) = true -> b < a.
Proof.
  intro H. apply Qnot_le_lt. intro H'. apply Qle_bool_iff in H'.
  rewrite H' in H. discriminate.
Qed.

(** [py_round2 x] is [n / 100] for an integer [n] at most 1/2 away from
    [100 x], and an exact tie picks an even [n]. *)
Lemma py_round2_spec x :
  exists n : Z, py_round2 x = inject_Z n / 100 /\
    inject_Z n - (1 # 2) <= x * 100 <= inject_Z n + (1 # 2) /\
    ((x * 100 == inject_Z n + (1 # 2) \/ x * 100 == inject_Z n - (1 # 2)) ->
     Z.even n = true).
Proof.
  unfold py_round2.
  set (y := x * 100). set (f := Qfloor y).
  pose proof (Qfloor_le y) as H1. pose proof (Qlt_floor y) as H2.
  fold f in H1, H2. rewrite inject_Z_plus in H2.
  change (inject_Z 1) with 1 in H2.
  destruct (negb (Qle_bool (1 # 2) (y - inject_Z f))) eqn:A.
  - apply negb_Qle_bool in A. exists f. split; [reflexivity|]. split; [lra|].
    intros [E|E]; lra.
  - rewrite negb_false_iff, Qle_bool_iff in A.
    destruct (negb (Qle_bool (y - inject_Z f) (1 # 2))) eqn:B.
    + apply negb_Qle_bool in B. exists (f + 1)%Z. split; [reflexivity|].
      rewrite inject_Z_plus. change (inject_Z 1) with 1.
      split; [lra|]. intros [E|E]; lra.
    + rewrite negb_false_iff, Qle_bool_iff in B.
      destruct (Z.even f) eqn:Ev.
      * exists f. split; [reflexivity|]. split; [lra|]. intros _. exact Ev.
      * exists (f + 1)%Z. split; [reflexivity|].
        rewrite inject_Z_plus. change (inject_Z 1) with 1.
        split; [lra|]. intros _. rewrite Z.even_add, Ev. reflexivity.
Qed.

Lemma py_round2_bounds x : 0 <= x <= 100 -> 0 <= py_round2 x <= 100.
Proof.
  intros Hx. destruct (py_round2_spec x) as (n & -> & Hn & _).
  assert (L : (-1 < n)%Z) by (rewrite Zlt_Qlt; change (inject_Z (-1)) with (-1); lra).
  assert (U : (n < 10001)%Z) by (rewrite Zlt_Qlt; change (inject_Z 10001) with 10001; lra).
  assert (L' : 0 <= inject_Z n) by (change 0 with (inject_Z 0); rewrite <- Zle_Qle; lia).
  assert (U' : inject_Z n <= 10000)
    by (change 10000 with (inject_Z 10000); rewrite <- Zle_Qle; lia).
  unfold Qdiv. change (/ 100) with (1 # 100). split; lra.
Qed.

Lemma py_round2_eq_100 x : 0 <= x <= 100 -> (py_round2 x == 100 <-> 19999 # 200 <= x).
Proof.
  intros Hx. destruct (py_round2_spec x) as (n & -> & Hn & Ht).
  assert (U : (n < 10001)%Z) by (rewrite Zlt_Qlt; change (inject_Z 10001) with 10001; lra).
  unfold Qdiv. change (/ 100) with (1 # 100).
  split; intro H.
  - assert (inject_Z n == 10000) by lra. lra.
  - assert (L : (9998 < n)%Z) by (rewrite Zlt_Qlt; change (inject_Z 9998) with 9998; lra).
    assert (n = 9999 \/ n = 10000)%Z as [E|E] by lia; subst n.
    + assert (x * 100 == inject_Z 9999 + (1 # 2)) as T.
      { change (inject_Z 9999) with 9999. change (inject_Z 9999) with 9999 in Hn. lra. }
      specialize (Ht (or_introl T)). discriminate.
    + change (inject_Z 10000) with 10000. lra.
Qed.


(** The unrounded rate [(total - violations) / total * 100]. *)
Lemma raw_rate_spec (t v : nat) :
  (v <= t)%nat -> (0 < t)%nat ->
  let x := inject_Z (Z.of_nat t - Z.of_nat v) / inject_Z (Z.of_nat t) * 100 in
  (0 <= x <= 100) /\ (19999 # 200 <= x <-> (20000 * Z.of_nat v <= Z.of_nat t)%Z).
Proof.
  intros Hvt Ht x.
  assert (Tpos : 0 < inject_Z (Z.of_nat t))
    by (change 0 with (inject_Z 0); rewrite <- Zlt_Qlt; lia).
  assert (V0 : 0 <= inject_Z (Z.of_nat v))
    by (change 0 with (inject_Z 0); rewrite <- Zle_Qle; lia).
  assert (VT : inject_Z (Z.of_nat v) <= inject_Z (Z.of_nat t))
    by (rewrite <- Zle_Qle; lia).
  assert (E : x * inject_Z (Z.of_nat t)
              == (inject_Z (Z.of_nat t) - inject_Z (Z.of_nat v)) * 100).
  { unfold x. unfold Z.sub. rewrite inject_Z_plus, inject_Z_opp.
    field. intro Z0. rewrite Z0 in Tpos. discriminate. }
  split; [split; nra|].
  rewrite Zle_Qle, inject_Z_mult. change (inject_Z 20000) with 20000.
  split; intro H; nra.
Qed.


(** [get_compliance_stats]: a failing read gives all zeros; otherwise the
    counts are those of the table, the violation count never exceeds the
    total, the rate lies between 0 and 100, and an empty table has rate 0. *)
Theorem get_compliance_stats_spec (table : Exc (list PPEDetection)) :
  match table with
  | inl _ => get_compliance_stats table =
               {| stats_total_detections := 0; stats_violation_count := 0;
                  stats_compliance_rate := 0 |}
  | inr rows =>
      let s := get_compliance_stats table in
      stats_total_detections s = length rows /\
      stats_violation_count s = length (filter is_violation_row rows) /\
      (stats_violation_count s <= stats_total_detections s)%nat /\
      0 <= stats_compliance_rate s <= 100 /\
      (rows = [] -> stats_compliance_rate s == 0)
  end.
Proof.
  destruct table as [e|rows]; [reflexivity|].
  cbn zeta. unfold get_compliance_stats, get_compliance_stats_body. cbn [bind ret].
  cbn [stats_total_detections stats_violation_count stats_compliance_rate].
  assert (Hle : (length (filter is_violation_row rows) <= length rows)%nat)
    by apply filter_length_le.
  split; [reflexivity|]. split; [reflexivity|]. split; [exact Hle|].
  destruct (0 <? length rows)%nat eqn:T.
  - apply Nat.ltb_lt in T.
    destruct (raw_rate_spec _ _ Hle T) as [B _].
    split; [apply py_round2_bounds; exact B|].
    intros ->. simpl in T. lia.
  - split; [apply py_round2_bounds; lra|]. intros _. reflexivity.
Qed.

(** The rounded rate reads 100 exactly when the table is not empty and has
    at most one 'VIOLATION' row per 20000 rows: a violation among 20000 or
    more detections is rounded away. *)
Theorem get_compliance_stats_rate_100 (rows : list PPEDetection) :
  stats_compliance_rate (get_compliance_stats (ret rows)) == 100 <->
  (0 < length rows)%nat /\
  (20000 * Z.of_nat (length (filter is_violation_row rows)) <= Z.of_nat (length rows))%Z.
Proof.
  unfold get_compliance_stats, get_compliance_stats_body. cbn [bind ret].
  cbn [stats_compliance_rate].
  assert (Hle : (length (filter is_violation_row rows) <= length rows)%nat)
    by apply filter_length_le.
  destruct (0 <? length rows)%nat eqn:T.
  - apply Nat.ltb_lt in T.
    destruct (raw_rate_spec _ _ Hle T) as [B I].
    rewrite (py_round2_eq_100 _ B), I. tauto.
  - apply Nat.ltb_ge in T. split.
    + intro H. vm_compute in H. discriminate.
    + intros [H _]. lia.
Qed.

End DatabaseProofs.

(** * The environment-driven attributes of [Config] ([src/config.py]) and
      [authenticate_admin] ([src/admin_panel.py]) *)

Module ConfigEnv.

Definition truthy := FaceRecognitionSystem.truthy.

(** [os.getenv(key, default)]: a variable that is set, even to the empty
    string, wins over the default. *)
Definition getenv_default (getenv : string -> option string) (key default : string)
  : string :=
  match getenv key with
  | Some v => v
  | None => default
  end.

(** [f"{x}"] for an attribute that holds a string or [None]. *)
Definition fmt_opt (o : option string) : string :=
  match o with
  | Some s => s
  | None => "None"
  end.

Record Config := {
  AWS_ACCESS_KEY_ID : option string;
  AWS_SECRET_ACCESS_KEY : option string;
  AWS_REGION : string;
  AWS_S3_BUCKET : option string;
  AWS_RDS_HOST : option string;
  AWS_RDS_DB : option string;
  AWS_RDS_USER : option string;
  AWS_RDS_PASSWORD : option string;
  AWS_RDS_PORT : string;
  OPENAI_API_KEY : option string;
  SMTP_SERVER : string;
  SMTP_PORT : Z;
  SMTP_USERNAME : option string;
  SMTP_PASSWORD : option string;
  SECRET_KEY : string;
  ADMIN_USERNAME : string;
  ADMIN_PASSWORD : string }.

(** The class body, run once at import with the environment that
    [load_dotenv()] leaves; [py_int] is Python's [int] on a string, which
    raises [ValueError] on a malformed [SMTP_PORT]. *)
Definition load_config (getenv : string -> option string) (py_int : string -> Exc Z)
  : Exc Config :=
  smtp_port <- py_int (getenv_default getenv "SMTP_PORT" "587") ;;
  ret {| AWS_ACCESS_KEY_ID := getenv "AWS_ACCESS_KEY_ID";
         AWS_SECRET_ACCESS_KEY := getenv "AWS_SECRET_ACCESS_KEY";
         AWS_REGION := getenv_default getenv "AWS_REGION" "us-east-1";
         AWS_S3_BUCKET := getenv "AWS_S3_BUCKET";
         AWS_RDS_HOST := getenv "AWS_RDS_HOST";
         AWS_RDS_DB := getenv "AWS_RDS_DB";
         AWS_RDS_USER := getenv "AWS_RDS_USER";
         AWS_RDS_PASSWORD := getenv "AWS_RDS_PASSWORD";
         AWS_RDS_PORT := getenv_default getenv "AWS_RDS_PORT" "5432";
         OPENAI_API_KEY := getenv "OPENAI_API_KEY";
         SMTP_SERVER := getenv_default getenv "SMTP_SERVER" "smtp.gmail.com";
         SMTP_PORT := smtp_port;
         SMTP_USERNAME := getenv "SMTP_USERNAME";
         SMTP_PASSWORD := getenv "SMTP_PASSWORD";
         SECRET_KEY := getenv_default getenv "SECRET_KEY" "intelliguard-secret-key";
         ADMIN_USERNAME := getenv_default getenv "ADMIN_USERNAME" "admin";
         ADMIN_PASSWORD := getenv_default getenv "ADMIN_PASSWORD" "admin123" |}.

Definition DATABASE_URL (self : Config) : string :=
  if forallb truthy [AWS_RDS_HOST self; AWS_RDS_USER self;
                     AWS_RDS_PASSWORD self; AWS_RDS_DB self]
  then "postgresql://" ++ fmt_opt (AWS_RDS_USER self) ++ ":"
       ++ fmt_opt (AWS_RDS_PASSWORD self) ++ "@" ++ fmt_opt (AWS_RDS_HOST self)
       ++ ":" ++ AWS_RDS_PORT self ++ "/" ++ fmt_opt (AWS_RDS_DB self)
  else "sqlite:///intelliguard.db".

(** [authenticate_admin] in [src/admin_panel.py]. *)
Definition authenticate_admin (config : Config) (username password : string) : bool :=
  String.eqb username (ADMIN_USERNAME config) && String.eqb password (ADMIN_PASSWORD config).

End ConfigEnv.

Module ConfigProofs.
Import ConfigEnv.

(** [DATABASE_URL] is the PostgreSQL URL built from the four RDS variables
    (and [AWS_RDS_PORT], 5432 when unset) when all four are set to non-empty
    strings, and the local SQLite file otherwise. *)
Theorem database_url_spec getenv py_int c :
  load_config getenv py_int = inr c ->
  match getenv "AWS_RDS_HOST", getenv "AWS_RDS_USER",
        getenv "AWS_RDS_PASSWORD", getenv "AWS_RDS_DB" with
  | Some h, Some u, Some p, Some d =>
      if String.eqb h "" || String.eqb u "" || String.eqb p "" || String.eqb d ""
      then DATABASE_URL c = "sqlite:///intelliguard.db"
      else DATABASE_URL c = "postgresql://" ++ u ++ ":" ++ p ++ "@" ++ h ++ ":"
                            ++ getenv_default getenv "AWS_RDS_PORT" "5432" ++ "/" ++ d
  | _, _, _, _ => DATABASE_URL c = "sqlite:///intelliguard.db"
  end.
Proof.
  unfold load_config. cbn [bind].
  destruct (py_int _) as [e|port]; [discriminate|]. intro H. inversion H; subst c; clear H.
  unfold DATABASE_URL. cbn [AWS_RDS_HOST AWS_RDS_USER AWS_RDS_PASSWORD AWS_RDS_DB AWS_RDS_PORT].
  destruct (getenv "AWS_RDS_HOST") as [h|], (getenv "AWS_RDS_USER") as [u|],
    (getenv "AWS_RDS_PASSWORD") as [p|], (getenv "AWS_RDS_DB") as [d|];
    unfold truthy, FaceRecognitionSystem.truthy; cbn [forallb fmt_opt];
    repeat match goal with
           | |- context [String.eqb ?x ""] => destruct (String.eqb x "")
           end;
    cbn [orb andb negb]; reflexivity.
Qed.

Lemma database_url_spec_witness :
  let env := fun k => if String.eqb k "AWS_RDS_HOST" then Some "db.example"
                      else if String.eqb k "AWS_RDS_USER" then Some "app"
                      else if String.eqb k "AWS_RDS_PASSWORD" then Some ""
                      else if String.eqb k "AWS_RDS_DB" then Some "ig" else None in
  let parse := fun s : string => if String.eqb s "587" then ret 587%Z else raise "ValueError" in
  exists c, load_config env parse = inr c /\
    DATABASE_URL c = "sqlite:///intelliguard.db".
Proof.
  intros env parse. eexists. split; [reflexivity|].
  exact (database_url_spec env parse _ eq_refl).
Defined.

(** With [ADMIN_USERNAME] and [ADMIN_PASSWORD] unset, the admin panel
    accepts exactly the built-in pair admin / admin123. *)
Theorem authenticate_admin_defaults getenv py_int c username password :
  load_config getenv py_int = inr c ->
  getenv "ADMIN_USERNAME" = None -> getenv "ADMIN_PASSWORD" = None ->
  authenticate_admin c username password = true <->
  username = "admin" /\ password = "admin123".
Proof.
  unfold load_config. cbn [bind].
  destruct (py_int _) as [e|port]; [discriminate|]. intro H. inversion H; subst c; clear H.
  intros HU HP. unfold authenticate_admin, getenv_default.
  cbn [ADMIN_USERNAME ADMIN_PASSWORD]. rewrite HU, HP.
  rewrite andb_true_iff, !String.eqb_eq. tauto.
Qed.

Lemma authenticate_admin_defaults_witness :
  let env := fun _ : string => @None string in
  let parse := fun _ : string => ret 587%Z in
  exists c, load_config env parse = inr c /\
    (authenticate_admin c "admin" "admin123" = true <-> "admin" = "admin" /\ "admin123" = "admin123").
Proof.
  intros env parse. eexists. split; [reflexivity|].
  exact (authenticate_admin_defaults env parse _ "admin" "admin123" eq_refl eq_refl eq_refl).
Defined.

End ConfigProofs.

(** * [EmailNotificationSystem] ([src/email_utils.py]) *)

Module EmailUtils.

(** The calls [_send_email] makes on [smtplib] and [logging], in order. *)
Inductive Event :=
| SMTP (host : string) (port : Z)
| Starttls
| Login (user password : option string)
| Sendmail (from_addr : option string) (to_addr : string) (msg : string)
| Quit
| LogError (message : string).

Record EmailNotificationSystem := {
  smtp_server : string;
  smtp_port : Z;
  username : option string;
  password : option string }.

Definition init (config : ConfigEnv.Config) : EmailNotificationSystem :=
  {| smtp_server := ConfigEnv.SMTP_SERVER config;
     smtp_port := ConfigEnv.SMTP_PORT config;
     username := ConfigEnv.SMTP_USERNAME config;
     password := ConfigEnv.SMTP_PASSWORD config |}.

Section Send.

(** The SMTP server: given the calls made so far, whether the next one
    raises, and with which message. *)
Variable smtp : list Event -> Event -> option string.

(** A state-and-exception monad over the trace of calls. *)
Definition M (A : Type) : Type := list Event -> list Event * Exc A.

Definition mret {A} (a : A) : M A := fun tr => (tr, inr a).

Definition mbind {A B} (m : M A) (k : A -> M B) : M B :=
  fun tr => match m tr with
            | (tr', inl e) => (tr', inl e)
            | (tr', inr a) => k a tr'
            end.

Definition smtp_call (ev : Event) : M unit :=
  fun tr => (tr ++ [ev],
             match smtp tr ev with
             | Some e => inl e
             | None => inr tt
             end)%list.

Definition log_error (message : string) : M unit :=
  fun tr => (tr ++ [LogError message], inr tt)%list.

Definition try_except (body : M unit) (handler : string -> M unit) : M unit :=
  fun tr => match body tr with
            | (tr', inl e) => handler e tr'
            | (tr', inr u) => (tr', inr u)
            end.

Fixpoint sendmail_loop (from_addr : option string) (recipient_emails : list string)
    (msg : string) : M unit :=
  match recipient_emails with
  | [] => mret tt
  | email :: rest =>
      mbind (smtp_call (Sendmail from_addr email msg))
            (fun _ => sendmail_loop from_addr rest msg)
  end.

(** [all([smtp_server, smtp_port, username, password])]. *)
Definition smtp_config_complete (self : EmailNotificationSystem) : bool :=
  negb (String.eqb (smtp_server self) "") && negb (smtp_port self =? 0)%Z
  && FaceRecognitionSystem.truthy (username self)
  && FaceRecognitionSystem.truthy (password self).

(** [_send_email]; [msg] is [msg.as_string()]. *)
Definition _send_email (self : EmailNotificationSystem) (msg : string)
    (recipient_emails : list string) : M unit :=
  if negb (smtp_config_complete self)
  then log_error "SMTP configuration incomplete"
  else try_except
         (mbind (smtp_call (SMTP (smtp_server self) (smtp_port self))) (fun _ =>
          mbind (smtp_call Starttls) (fun _ =>
          mbind (smtp_call (Login (username self) (password self))) (fun _ =>
          mbind (sendmail_loop (username self) recipient_emails msg) (fun _ =>
          smtp_call Quit)))))
         (fun e => log_error ("Error sending email: " ++ e)).

End Send.

(** The colour of the alert banner in [_create_violation_email_body];
    [severity] is [violation_data.get('severity')]. *)
Definition severity_color (severity : option string) : string :=
  let s := match severity with Some s => s | None => "MEDIUM" end in
  if String.eqb s "CRITICAL" then "#dc3545"
  else if String.eqb s "HIGH" then "#fd7e14"
  else if String.eqb s "MEDIUM" then "#ffc107"
  else if String.eqb s "LOW" then "#28a745"
  else "#ffc107".

End EmailUtils.

Module EmailProofs.
Import EmailUtils.
Local Open Scope list_scope.

Definition event_eq_dec (a b : Event) : {a = b} + {a <> b}.
Proof.
  decide equality;
    try apply string_dec; try apply Z.eq_dec;
    try (decide equality; apply string_dec).
Defined.

Section Server.

Variable smtp : list Event -> Event -> option string.

Lemma sendmail_loop_ok from_addr rs msg :
  (forall tr ev, smtp tr ev = None) ->
  forall tr, sendmail_loop smtp from_addr rs msg tr
             = (tr ++ map (fun r => Sendmail from_addr r msg) rs, inr tt).
Proof.
  intros Ok. induction rs as [|r rs IH]; intro tr.
  - rewrite app_nil_r. reflexivity.
  - simpl. unfold mbind, smtp_call. rewrite Ok. rewrite IH, <- app_assoc. reflexivity.
Qed.

Lemma sendmail_loop_fail from_addr pre r post msg err :
  (forall tr ev, ev <> Sendmail from_addr r msg -> smtp tr ev = None) ->
  (forall tr, smtp tr (Sendmail from_addr r msg) = Some err) ->
  ~ In r pre ->
  forall tr, sendmail_loop smtp from_addr (pre ++ r :: post) msg tr
             = (tr ++ map (fun r' => Sendmail from_addr r' msg) pre
                   ++ [Sendmail from_addr r msg], inl err).
Proof.
  intros Ok Bad. induction pre as [|r' pre IH]; intros Hin tr.
  - simpl. unfold mbind, smtp_call. rewrite Bad. reflexivity.
  - simpl. unfold mbind, smtp_call.
    rewrite Ok by (intro E; injection E; intros; apply Hin; left; congruence).
    rewrite IH by (intro H; apply Hin; right; exact H).
    rewrite <- app_assoc. reflexivity.
Qed.

End Server.

(** With a complete configuration and a server that accepts every call,
    [_send_email] connects, starts TLS, logs in, sends one copy of the
    message to each recipient in list order, and quits. *)
Theorem send_email_delivers smtp self msg recipient_emails tr :
  smtp_config_complete self = true ->
  (forall tr' ev, smtp tr' ev = None) ->
  _send_email smtp self msg recipient_emails tr
    = (tr ++ [SMTP (smtp_server self) (smtp_port self); Starttls;
              Login (username self) (password self)]
          ++ map (fun r => Sendmail (username self) r msg) recipient_emails
          ++ [Quit], inr tt).
Proof.
  intros C Ok. unfold _send_email. rewrite C. cbn [negb].
  unfold try_except, mbind at 1, smtp_call at 1. rewrite Ok.
  unfold mbind at 1, smtp_call at 1. rewrite Ok.
  unfold mbind at 1, smtp_call at 1. rewrite Ok.
  unfold mbind at 1. rewrite sendmail_loop_ok by exact Ok.
  unfold smtp_call. rewrite Ok.
  rewrite <- !app_assoc. reflexivity.
Qed.

Definition gmail : EmailNotificationSystem :=
  {| smtp_server := "smtp.gmail.com"; smtp_port := 587;
     username := Some "alerts@example.com"; password := Some "pw" |}.

Lemma send_email_delivers_witness :
  _send_email (fun _ _ => None) gmail "m" ["a@x"; "b@x"] []
    = ([SMTP "smtp.gmail.com" 587; Starttls; Login (Some "alerts@example.com") (Some "pw")]
       ++ [Sendmail (Some "alerts@example.com") "a@x" "m";
           Sendmail (Some "alerts@example.com") "b@x" "m"] ++ [Quit], inr tt).
Proof.
  exact (send_email_delivers (fun _ _ => None) gmail "m" ["a@x"; "b@x"] []
           eq_refl (fun _ _ => eq_refl)).
Defined.

(** When the server rejects the message for one recipient, the recipients
    after it get nothing, [quit] is never called, and the error is only
    logged: [_send_email] does not raise. *)
Theorem send_email_stops_at_rejection smtp self msg pre r post err tr :
  smtp_config_complete self = true ->
  (forall tr' ev, ev <> Sendmail (username self) r msg -> smtp tr' ev = None) ->
  (forall tr', smtp tr' (Sendmail (username self) r msg) = Some err) ->
  ~ In r pre ->
  _send_email smtp self msg (pre ++ r :: post) tr
    = (tr ++ [SMTP (smtp_server self) (smtp_port self); Starttls;
              Login (username self) (password self)]
          ++ map (fun r' => Sendmail (username self) r' msg) pre
          ++ [Sendmail (username self) r msg;
              LogError ("Error sending email: " ++ err)], inr tt).
Proof.
  intros C Ok Bad Hin. unfold _send_email. rewrite C. cbn [negb].
  unfold try_except, mbind at 1, smtp_call at 1. rewrite Ok by discriminate.
  unfold mbind at 1, smtp_call at 1. rewrite Ok by discriminate.
  unfold mbind at 1, smtp_call at 1. rewrite Ok by discriminate.
  unfold mbind at 1. rewrite (sendmail_loop_fail smtp _ _ _ _ _ _ Ok Bad Hin).
  unfold log_error. rewrite <- !app_assoc. reflexivity.
Qed.

Definition reject_b (_ : list Event) (ev : Event) : option string :=
  if event_eq_dec ev (Sendmail (Some "alerts@example.com") "b@x" "m")
  then Some "550 mailbox unavailable" else None.

Lemma send_email_stops_at_rejection_witness :
  _send_email reject_b gmail "m" ["a@x"; "b@x"; "c@x"] []
    = ([SMTP "smtp.gmail.com" 587; Starttls; Login (Some "alerts@example.com") (Some "pw")]
       ++ [Sendmail (Some "alerts@example.com") "a@x" "m"]
       ++ [Sendmail (Some "alerts@example.com") "b@x" "m";
           LogError ("Error sending email: " ++ "550 mailbox unavailable")], inr tt).
Proof.
  refine (send_email_stops_at_rejection reject_b gmail "m" ["a@x"] "b@x" ["c@x"]
            "550 mailbox unavailable" [] eq_refl _ _ _).
  - intros tr' ev H. unfold reject_b.
    destruct (event_eq_dec ev _) as [E|E]; [contradiction|reflexivity].
  - intro tr'. unfold reject_b.
    destruct (event_eq_dec _ _) as [E|E]; [reflexivity|contradiction E; reflexivity].
  - simpl. intros [H|H]; [discriminate|exact H].
Defined.

End EmailProofs.

(** * More of [ppe_detector.py] and [face_recognition_system.py] *)

Module DetectorExtras.
Import PPEDetector.

(** How [detect_ppe] names a box from its class id: ids from 12 up become
    [object_<id>]; ids 0 to 11 index [PPE_CLASSES]; Python's negative
    indexing makes ids -12 to -1 name a class counted from the end of the
    list; an id below -12 raises [IndexError], and a model output whose
    first box has such an id turns the whole call into the ERROR verdict. *)
Theorem box_class_name_range (class_id : Z) :
  ((12 <= class_id)%Z -> box_class_name class_id = ret ("object_" ++ py_str_Z class_id)) /\
  ((0 <= class_id < 12)%Z ->
     box_class_name class_id = ret (nth (Z.to_nat class_id) Config.PPE_CLASSES "")) /\
  ((-12 <= class_id < 0)%Z ->
     box_class_name class_id = ret (nth (Z.to_nat (class_id + 12)) Config.PPE_CLASSES "")) /\
  ((class_id < -12)%Z ->
     box_class_name class_id = raise "IndexError: list index out of range" /\
     forall {Image} (model : Image -> Q -> Exc (list Result)) image thr b bs rs,
       cls b = class_id ->
       model image thr = ret ({| boxes := Some (b :: bs) |} :: rs) ->
       detect_ppe model image thr = error_verdict).
Proof.
  assert (Hlen : length class_names = 12%nat) by reflexivity.
  assert (Low : (class_id < -12)%Z ->
                box_class_name class_id = raise "IndexError: list index out of range").
  { intro H. unfold box_class_name, py_list_get. rewrite Hlen.
    change (Z.of_nat 12) with 12%Z.
    destruct (class_id <? 12)%Z eqn:E; [|apply Z.ltb_ge in E; lia].
    destruct (class_id <? 0)%Z eqn:E0; [|apply Z.ltb_ge in E0; lia].
    cbv zeta.
    destruct (class_id + 12 <? 0)%Z eqn:E1; [reflexivity|apply Z.ltb_ge in E1; lia]. }
  split; [|split; [|split]].
  - intro H. unfold box_class_name. rewrite Hlen. change (Z.of_nat 12) with 12%Z.
    destruct (class_id <? 12)%Z eqn:E; [apply Z.ltb_lt in E; lia|reflexivity].
  - intro H. unfold box_class_name, py_list_get. rewrite Hlen.
    change (Z.of_nat 12) with 12%Z.
    destruct (class_id <? 12)%Z eqn:E; [|apply Z.ltb_ge in E; lia].
    destruct (class_id <? 0)%Z eqn:E0; [apply Z.ltb_lt in E0; lia|].
    destruct ((class_id <? 0) || (12 <=? class_id))%Z eqn:E1;
      [apply orb_true_iff in E1; destruct E1 as [E1|E1];
       [apply Z.ltb_lt in E1|apply Z.leb_le in E1]; lia|].
    rewrite (nth_error_nth' class_names "") by (rewrite Hlen; lia). reflexivity.
  - intro H. unfold box_class_name, py_list_get. rewrite Hlen.
    change (Z.of_nat 12) with 12%Z.
    destruct (class_id <? 12)%Z eqn:E; [|apply Z.ltb_ge in E; lia].
    destruct (class_id <? 0)%Z eqn:E0; [|apply Z.ltb_ge in E0; lia].
    destruct ((class_id + 12 <? 0) || (12 <=? class_id + 12))%Z eqn:E1;
      [apply orb_true_iff in E1; destruct E1 as [E1|E1];
       [apply Z.ltb_lt in E1|apply Z.leb_le in E1]; lia|].
    rewrite (nth_error_nth' class_names "") by (rewrite Hlen; lia). reflexivity.
  - intro H. split; [exact (Low H)|].
    intros Image model image thr b bs rs Hb Hm.
    unfold detect_ppe, detect_ppe_body. rewrite Hm. unfold ret at 1.
    cbn [bind scan_results boxes scan_boxes].
    unfold process_box. destruct (xyxy b) as [[[x1 y1] x2] y2].
    rewrite Hb, (Low H). reflexivity.
Qed.

(** The alert banner colour of a violation, by the class the detector
    reported: red for [no_helmet], orange for [no_mask] and [no-suit], amber
    for every other class; the LOW colour (green) never appears for a
    severity the detector assigns, and a missing severity is shown amber. *)
Theorem violation_alert_color (violation_type : string) :
  EmailUtils.severity_color (Some (get_violation_severity violation_type)) =
    (if String.eqb violation_type "no_helmet" then "#dc3545"
     else if String.eqb violation_type "no_mask" || String.eqb violation_type "no-suit"
     then "#fd7e14" else "#ffc107") /\
  EmailUtils.severity_color (Some (get_violation_severity violation_type)) <> "#28a745" /\
  EmailUtils.severity_color None = "#ffc107".
Proof.
  unfold get_violation_severity.
  repeat match goal with
         | |- context [String.eqb violation_type ?k] =>
             let E := fresh "E" in
             destruct (String.eqb violation_type k) eqn:E;
             [apply String.eqb_eq in E; subst violation_type;
              split; [reflexivity|split; [discriminate|reflexivity]]|]
         end.
  cbn [orb]. split; [reflexivity|split; [discriminate|reflexivity]].
Qed.

End DetectorExtras.

Module FaceExtras.
Import FaceRecognitionSystem.
Local Open Scope list_scope.

Section Lib.

Variable Image Loc : Type.
Variable to_rgb : Image -> Exc Image.
Variable face_locations : Image -> Exc (list Loc).
Variable face_encodings : Image -> list Loc -> Exc (list Enc).
Variable euclid : Enc -> Enc -> Q.

(** A face no enrollment is within tolerance of is passed over. *)
Lemma match_faces_skip (self : FRS) (locs : list Loc) (q : Enc) rest :
  (forall j e, nth_error (known_face_encodings self) j = Some e ->
               tolerance self < euclid e q) ->
  match_faces euclid self locs (q :: rest) = match_faces euclid self locs rest.
Proof.
  intro Far. cbn [match_faces].
  destruct (existsb (fun b => b) _) eqn:Ex; [|reflexivity].
  exfalso. apply existsb_exists in Ex. destruct Ex as [b [Hin Hb]]. subst b.
  unfold compare_faces, face_distance in Hin. rewrite map_map in Hin.
  apply in_map_iff in Hin. destruct Hin as [e [He Hin]].
  apply In_nth_error in Hin. destruct Hin as [j Hj].
  specialize (Far j e Hj). apply Qle_bool_iff in He.
  exact (Qlt_not_le _ _ Far He).
Qed.

(** With two or more faces in the image, when no enrollment is within
    tolerance of the first face but one is of the second, [recognize_face]
    returns the enrollment closest to the second face, yet reports the
    location of the first face. *)
Theorem recognize_face_reports_first_location (self : FRS) image image'
    (l0 l1 : Loc) ls (q0 q1 : Enc) rest j0 e0 :
  length (known_face_names self) = length (known_face_encodings self) ->
  to_rgb image = inr image' ->
  face_locations image' = inr (l0 :: l1 :: ls) ->
  face_encodings image' (l0 :: l1 :: ls) = inr (q0 :: q1 :: rest) ->
  (forall j e, nth_error (known_face_encodings self) j = Some e ->
               tolerance self < euclid e q0) ->
  nth_error (known_face_encodings self) j0 = Some e0 ->
  euclid e0 q1 <= tolerance self ->
  exists i e name,
    nth_error (known_face_encodings self) i = Some e /\
    nth_error (known_face_names self) i = Some name /\
    euclid e q1 <= tolerance self /\
    (forall j e', nth_error (known_face_encodings self) j = Some e' ->
                  euclid e q1 <= euclid e' q1) /\
    recognize_face to_rgb face_locations face_encodings euclid self image =
      (Some {| FaceMatch.username := name;
               FaceMatch.confidence := 1 - euclid e q1;
               FaceMatch.face_location := l0 |},
       "Face recognized successfully").
Proof.
  intros Hlen Hrgb Hloc Henc Far Hj0 Htol.
  destruct (FaceProofs.match_faces_hit _ euclid self l0 (l1 :: ls) q1 rest j0 e0 Hlen Hj0 Htol)
    as (i & e & name & H1 & H2 & H3 & H4 & _ & H6).
  exists i, e, name. split; [exact H1|]. split; [exact H2|]. split; [exact H3|].
  split.
  - intros j e' Hj. destruct (Qlt_le_dec (tolerance self) (euclid e' q1)) as [L|L].
    + apply Qlt_le_weak. exact (Qle_lt_trans _ _ _ H3 L).
    + exact (H4 j e' Hj L).
  - unfold recognize_face, recognize_face_body.
    rewrite Hrgb. cbn [bind]. rewrite Hloc. cbn [bind length Nat.eqb].
    rewrite Henc. cbn [bind length Nat.eqb].
    rewrite (match_faces_skip self _ q0 _ Far), H6. reflexivity.
Qed.

End Lib.

(** An image with two faces: the first far from every enrollment, the
    second at distance 0.4 from alice. *)
Definition two_faces : FaceProofs.ToyImage :=
  Some [((0, 30, 30, 0)%Z, [5]); (FaceProofs.face_loc, [4 # 10])].

Lemma recognize_face_reports_first_location_witness :
  exists name d,
    recognize_face FaceProofs.toy_to_rgb FaceProofs.toy_face_locations
      FaceProofs.toy_face_encodings FaceProofs.l1_distance FaceProofs.alice_bob two_faces =
      (Some {| FaceMatch.username := name;
               FaceMatch.confidence := 1 - d;
               FaceMatch.face_location := (0, 30, 30, 0)%Z |},
       "Face recognized successfully").
Proof.
  assert (Far : forall j e, nth_error (known_face_encodings FaceProofs.alice_bob) j = Some e ->
                  tolerance FaceProofs.alice_bob < FaceProofs.l1_distance e [5]).
  { intros [|[|j]] e H; simpl in H.
    - inversion H; subst. vm_compute. reflexivity.
    - inversion H; subst. vm_compute. reflexivity.
    - rewrite nth_error_nil in H. discriminate. }
  assert (Htol : FaceProofs.l1_distance [0] [4 # 10] <= tolerance FaceProofs.alice_bob)
    by (apply Qle_bool_imp_le; vm_compute; reflexivity).
  destruct (recognize_face_reports_first_location FaceProofs.ToyImage FaceProofs.ToyLoc
              FaceProofs.toy_to_rgb FaceProofs.toy_face_locations FaceProofs.toy_face_encodings
              FaceProofs.l1_distance FaceProofs.alice_bob two_faces two_faces
              (0, 30, 30, 0)%Z FaceProofs.face_loc [] [5] [4 # 10] [] 0 [0]
              eq_refl eq_refl eq_refl eq_refl Far eq_refl Htol)
    as (i & e & name & _ & _ & _ & _ & Hr).
  exists name, (FaceProofs.l1_distance e [4 # 10]). exact Hr.
Defined.

End FaceExtras.

(** * The admin panel ([src/admin_panel.py]) over the employees table of
      [src/database.py]

    A run of a page is a function of the session state, the widgets' values
    and the database; what it shows and writes is a list of effects.  The
    messages of [st.error], [st.warning] and [st.success] are written
    without their leading emoji. *)

Module AdminPanel.

(** ** The login gate: [show_admin_panel] and [show_admin_login] *)

Inductive Page :=
| LoginPage
| AdminPage (admin_tab : string).

(** [st.session_state.admin_logged_in], absent in a fresh session. *)
Definition logged_in (admin_logged_in : option bool) : bool :=
  match admin_logged_in with
  | Some b => b
  | None => false
  end.

(** One run of [show_admin_panel]: [login_click] is [Some (username,
    password)] when the login button was pressed in this run.  A successful
    login sets [admin_logged_in] first; what follows it in the handler (the
    user name, the message, [st.rerun()]) does not touch the flag, and the
    admin page appears from the next run on. *)
Definition show_admin_panel (config : ConfigEnv.Config) (admin_logged_in : option bool)
    (login_click : option (string * string)) (admin_tab : string)
    : option bool * Page :=
  if negb (logged_in admin_logged_in) then
    match login_click with
    | Some (username, password) =>
        if ConfigEnv.authenticate_admin config username password
        then (Some true, LoginPage)
        else (admin_logged_in, LoginPage)
    | None => (admin_logged_in, LoginPage)
    end
  else (admin_logged_in, AdminPage admin_tab).

(** A session: the runs in order, from a given session state. *)
Fixpoint session (config : ConfigEnv.Config) (admin_logged_in : option bool)
    (runs : list (option (string * string) * string)) : list Page :=
  match runs with
  | [] => []
  | (login_click, admin_tab) :: rest =>
      let '(st', page) := show_admin_panel config admin_logged_in login_click admin_tab in
      page :: session config st' rest
  end.

(** ** The employees table *)

(** The dictionary [employee_data] built by the add form. *)
Record EmployeeData := {
  username : string;
  password_hash : string;
  first_name : string;
  last_name : string;
  email : string;
  department : string;
  role : string;
  face_encoding : option string }.

(** A row: the autoincremented id (one more than the largest id, as
    SQLite's rowid), the columns set from [employee_data], and [is_active],
    which defaults to true. *)
Record EmployeeRow := {
  id : Z;
  data : EmployeeData;
  is_active : bool }.

(** [DatabaseManager.add_employee]: [db_error] is an error the database
    raises on commit (connection lost, ...); the unique constraints on
    [username] and [email] make the commit fail too.  On failure the session
    is rolled back and [None] is returned. *)
Definition add_employee (db_error : option string) (table : list EmployeeRow)
    (employee_data : EmployeeData) : option Z * list EmployeeRow :=
  match db_error with
  | Some _ => (None, table)
  | None =>
      if existsb (fun r => String.eqb (username (data r)) (username employee_data)
                           || String.eqb (email (data r)) (email employee_data)) table
      then (None, table)
      else let new_id := (1 + fold_right Z.max 0 (map id table))%Z in
           (Some new_id,
            (table ++ [{| id := new_id; data := employee_data; is_active := true |}])%list)
  end.

(** The rows as [load_known_faces] reads them, from [get_all_employees]
    (the table in insertion order). *)
Definition face_rows (table : list EmployeeRow) : list FaceRecognitionSystem.Employee :=
  map (fun r => {| FaceRecognitionSystem.username := username (data r);
                   FaceRecognitionSystem.face_encoding := face_encoding (data r) |}) table.

(** ** [show_add_employee_form], after the submit button *)

Inductive Effect :=
| StError (message : string)
| StWarning (message : string)
| StSuccess (message : string)
| RegistrationNotification (employee_data : EmployeeData) (admin_emails : list string)
| AuditLog (user_id : option Z) (action details : string).

Record AddForm (Img : Type) := {
  f_first_name : string;
  f_last_name : string;
  f_username : string;
  f_email : string;
  f_department : string;
  f_role : string;
  f_password : string;
  f_confirm_password : string;
  f_uploaded_image : option Img }.
Arguments f_first_name {Img}. Arguments f_last_name {Img}. Arguments f_username {Img}.
Arguments f_email {Img}. Arguments f_department {Img}. Arguments f_role {Img}.
Arguments f_password {Img}. Arguments f_confirm_password {Img}.
Arguments f_uploaded_image {Img}.

(** [if encoding:] on the list or [None] from [encode_face_from_image]. *)
Definition enc_truthy (encoding : option FaceRecognitionSystem.Enc) : bool :=
  match encoding with
  | Some (_ :: _) => true
  | _ => false
  end.

Section AddEmployee.

(** [bcrypt.hashpw] with a fresh salt, [encode_face_from_image] on the
    opened upload, and [json.dumps] of a list of floats. *)
Variable Img : Type.
Variable hashpw : string -> string.
Variable encode_face_from_image : Img -> option FaceRecognitionSystem.Enc * string.
Variable json_dumps : FaceRecognitionSystem.Enc -> string.

(** The face part of the submit handler: the stored [face_encoding] and the
    warning shown. *)
Definition process_face (uploaded_image : option Img) : option string * list Effect :=
  match uploaded_image with
  | None => (None, [])
  | Some image =>
      let '(encoding, message) := encode_face_from_image image in
      if enc_truthy encoding then
        match encoding with
        | Some e => (Some (json_dumps e), [])
        | None => (None, [])
        end
      else (None, [StWarning ("Face processing issue: " ++ message)])
  end.

Definition submit_add_employee (db_error : option string) (table : list EmployeeRow)
    (form : AddForm Img) : list EmployeeRow * list Effect :=
  if negb (String.eqb (f_password form) (f_confirm_password form)) then
    (table, [StError "Passwords do not match!"])
  else if negb (forallb (fun s => negb (String.eqb s ""))
                  [f_first_name form; f_last_name form; f_username form;
                   f_email form; f_password form]) then
    (table, [StError "Please fill in all required fields!"])
  else
    let password_hash := hashpw (f_password form) in
    let '(face_encoding, warnings) := process_face (f_uploaded_image form) in
    let employee_data := {| username := f_username form;
                            password_hash := password_hash;
                            first_name := f_first_name form;
                            last_name := f_last_name form;
                            email := f_email form;
                            department := f_department form;
                            role := f_role form;
                            face_encoding := face_encoding |} in
    let '(employee_id, table') := add_employee db_error table employee_data in
    if match employee_id with Some i => negb (i =? 0)%Z | None => false end then
      (table', (warnings ++
        [StSuccess ("Employee " ++ f_first_name form ++ " " ++ f_last_name form
                    ++ " added successfully!");
         RegistrationNotification employee_data ["admin@company.com"];
         AuditLog None ("Employee Added: " ++ f_username form)
           ("New employee " ++ f_first_name form ++ " " ++ f_last_name form
            ++ " added to " ++ f_department form ++ " department")])%list)
    else
      (table', (warnings ++
        [StError "Failed to add employee. Username or email might already exist."])%list).

End AddEmployee.

(** ** [show_employees_list]: the four metrics *)

Definition count {A} (p : A -> bool) (l : list A) : nat := length (filter p l).

Definition employee_metrics (employees : list EmployeeRow) : nat * nat * nat * nat :=
  (length employees,
   count is_active employees,
   count (fun emp => FaceRecognitionSystem.truthy (face_encoding (data emp))) employees,
   count (fun emp => String.eqb (role (data emp)) "admin") employees).

(** ** [show_update_employee_form] *)

Definition DEPARTMENTS : list string :=
  ["Manufacturing"; "Assembly"; "Quality Control"; "Maintenance"; "Logistics";
   "Administration"].

(** [list.index(x)]: the first position, [ValueError] when absent. *)
Fixpoint py_index (l : list string) (x : string) : Exc nat :=
  match l with
  | [] => raise "ValueError: is not in list"
  | y :: ys => if String.eqb y x then ret 0%nat
               else n <- py_index ys x ;; ret (S n)
  end.

(** The preselected department and role. *)
Definition department_index (department : string) : Exc nat :=
  if py_in department DEPARTMENTS then py_index DEPARTMENTS department else ret 0%nat.

Definition role_index (role : string) : nat :=
  if String.eqb role "user" then 0 else 1.

(** The submit button of the update form: the "Update logic here" branch. *)
Definition submit_update_employee (table : list EmployeeRow) (selected_emp : EmployeeRow)
    (new_first_name new_last_name new_email new_department new_role : string)
    (new_active : bool) (new_password : string) {Img} (new_face_image : option Img)
    : list EmployeeRow * list Effect :=
  (table,
   [StSuccess "Employee updated successfully!";
    AuditLog None ("Employee Updated: " ++ username (data selected_emp))
      ("Employee " ++ new_first_name ++ " " ++ new_last_name ++ " details updated")]).

End AdminPanel.

Module AdminProofs.
Import AdminPanel.
Local Open Scope list_scope.

(** ** The login gate *)

Lemma session_gate config runs : forall s k tab,
  logged_in s = false ->
  nth_error (session config s runs) k = Some (AdminPage tab) ->
  exists j u p tab', (j < k)%nat /\ nth_error runs j = Some (Some (u, p), tab') /\
    ConfigEnv.authenticate_admin config u p = true.
Proof.
  induction runs as [|[click tab0] rest IH]; intros s k tab Hs H.
  - rewrite nth_error_nil in H. discriminate.
  - simpl in H. unfold show_admin_panel in H. rewrite Hs in H. cbn [negb] in H.
    destruct click as [[u p]|].
    + destruct (ConfigEnv.authenticate_admin config u p) eqn:A.
      * destruct k as [|k]; [discriminate|].
        exists 0%nat, u, p, tab0. split; [lia|]. split; [reflexivity|exact A].
      * destruct k as [|k]; [discriminate|]. simpl in H.
        destruct (IH s k tab Hs H) as (j & u' & p' & t' & Hj & Hn & Ha).
        exists (S j), u', p', t'. split; [lia|]. split; [exact Hn|exact Ha].
    + destruct k as [|k]; [discriminate|]. simpl in H.
      destruct (IH s k tab Hs H) as (j & u' & p' & t' & Hj & Hn & Ha).
      exists (S j), u', p', t'. split; [lia|]. split; [exact Hn|exact Ha].
Qed.

(** In a fresh session, an admin page is shown only after an earlier run in
    which the login button was pressed with the configured admin user name
    and password. *)
Theorem admin_pages_need_login config runs k admin_tab :
  nth_error (session config None runs) k = Some (AdminPage admin_tab) ->
  exists j username password tab,
    (j < k)%nat /\ nth_error runs j = Some (Some (username, password), tab) /\
    ConfigEnv.authenticate_admin config username password = true.
Proof.
  intro H. exact (session_gate config runs None k admin_tab eq_refl H).
Qed.

Definition default_config : ConfigEnv.Config :=
  match ConfigEnv.load_config (fun _ => None) (fun _ => ret 587%Z) with
  | inr c => c
  | inl _ => {| ConfigEnv.AWS_ACCESS_KEY_ID := None; ConfigEnv.AWS_SECRET_ACCESS_KEY := None;
                ConfigEnv.AWS_REGION := ""; ConfigEnv.AWS_S3_BUCKET := None;
                ConfigEnv.AWS_RDS_HOST := None; ConfigEnv.AWS_RDS_DB := None;
                ConfigEnv.AWS_RDS_USER := None; ConfigEnv.AWS_RDS_PASSWORD := None;
                ConfigEnv.AWS_RDS_PORT := ""; ConfigEnv.OPENAI_API_KEY := None;
                ConfigEnv.SMTP_SERVER := ""; ConfigEnv.SMTP_PORT := 0;
                ConfigEnv.SMTP_USERNAME := None; ConfigEnv.SMTP_PASSWORD := None;
                ConfigEnv.SECRET_KEY := ""; ConfigEnv.ADMIN_USERNAME := "";
                ConfigEnv.ADMIN_PASSWORD := "" |}
  end.

Lemma admin_pages_need_login_witness :
  exists j username password tab,
    (j < 2)%nat /\
    nth_error [(Some ("admin", "wrong"), ""); (Some ("admin", "admin123"), "");
               (None, "System Analytics")] j = Some (Some (username, password), tab) /\
    ConfigEnv.authenticate_admin default_config username password = true.
Proof.
  apply (admin_pages_need_login default_config _ 2 "System Analytics").
  reflexivity.
Defined.

(** ** The add-employee form *)

Section Add.

Variable Img : Type.
Variable hashpw : string -> string.
Variable encode : Img -> option FaceRecognitionSystem.Enc * string.
Variable json_dumps : FaceRecognitionSystem.Enc -> string.
Variable json_loads_array : string -> Exc FaceRecognitionSystem.Enc.

Definition registry (table : list EmployeeRow) : list (string * FaceRecognitionSystem.Enc) :=
  let r := FaceRecognitionSystem.load_known_faces json_loads_array
             FaceRecognitionSystem.init (face_rows table) in
  combine (FaceRecognitionSystem.known_face_names r)
          (FaceRecognitionSystem.known_face_encodings r).

Lemma registry_enrolled table :
  registry table = FaceProofs.enrolled json_loads_array (face_rows table).
Proof.
  unfold registry, FaceRecognitionSystem.load_known_faces. cbn.
  destruct (FaceProofs.load_loop_spec json_loads_array (face_rows table) [] [] eq_refl)
    as [H _]. exact H.
Qed.

Lemma registry_snoc table row :
  registry (table ++ [row]) = registry table ++ registry [row].
Proof.
  rewrite !registry_enrolled. unfold face_rows, FaceProofs.enrolled.
  rewrite map_app, flat_map_app. reflexivity.
Qed.

Definition fresh (table : list EmployeeRow) (form : AddForm Img) : bool :=
  negb (existsb (fun r => String.eqb (username (data r)) (f_username form)
                          || String.eqb (email (data r)) (f_email form)) table).

Definition filled (form : AddForm Img) : bool :=
  forallb (fun s => negb (String.eqb s ""))
    [f_first_name form; f_last_name form; f_username form; f_email form; f_password form].

(** Adding an employee with a photo whose face is encoded stores the
    embedding as JSON in the new row, and reloading the registry from the
    table then gives the previous registry followed by this employee's
    username and embedding (given that [json.loads] reads back what
    [json.dumps] wrote). *)
Theorem add_employee_enrolls_face table (form : AddForm Img) image e message :
  f_password form = f_confirm_password form ->
  filled form = true ->
  fresh table form = true ->
  f_uploaded_image form = Some image ->
  encode image = (Some e, message) ->
  e <> [] ->
  json_dumps e <> "" ->
  json_loads_array (json_dumps e) = inr e ->
  exists new_id row,
    fst (submit_add_employee Img hashpw encode json_dumps None table form) = table ++ [row] /\
    id row = new_id /\ (0 < new_id)%Z /\
    username (data row) = f_username form /\
    face_encoding (data row) = Some (json_dumps e) /\
    registry (table ++ [row]) = registry table ++ [(f_username form, e)].
Proof.
  intros Hpw Hf Hfr Hup Henc Hne Hdn Hrt.
  unfold submit_add_employee.
  assert (E : String.eqb (f_password form) (f_confirm_password form) = true)
    by (apply String.eqb_eq; exact Hpw).
  rewrite E. cbn [negb].
  unfold filled in Hf. rewrite Hf. cbn [negb].
  unfold process_face. rewrite Hup, Henc.
  destruct e as [|x xs]; [contradiction|]. cbn [enc_truthy].
  unfold add_employee. cbn [username email].
  unfold fresh in Hfr. apply negb_true_iff in Hfr. rewrite Hfr.
  set (new_id := (1 + fold_right Z.max 0 (map id table))%Z).
  assert (Hpos : (0 < new_id)%Z).
  { unfold new_id. assert (0 <= fold_right Z.max 0 (map id table))%Z.
    { induction (map id table) as [|z zs IH]; simpl; [lia|].
      eapply Z.le_trans; [exact IH|apply Z.le_max_r]. }
    lia. }
  assert (Hnz : (new_id =? 0)%Z = false) by (apply Z.eqb_neq; lia).
  rewrite Hnz. cbn [negb fst].
  eexists. eexists. split; [reflexivity|].
  split; [reflexivity|]. split; [exact Hpos|]. split; [reflexivity|].
  split; [reflexivity|].
  rewrite registry_snoc. f_equal.
  rewrite registry_enrolled. unfold face_rows, FaceProofs.enrolled. cbn.
  destruct (String.eqb (json_dumps (x :: xs)) "") eqn:Ed;
    [apply String.eqb_eq in Ed; contradiction|].
  rewrite Hrt. reflexivity.
Qed.

(** When no photo is uploaded, or the photo yields no embedding, the face
    registry reloaded from the table is unchanged by the submission,
    whatever else happens (refusal, database error, duplicate user, or
    the employee being added without a face). *)
Theorem add_employee_without_face_keeps_registry db_error table (form : AddForm Img) :
  match f_uploaded_image form with
  | None => True
  | Some image => enc_truthy (fst (encode image)) = false
  end ->
  registry (fst (submit_add_employee Img hashpw encode json_dumps db_error table form))
    = registry table.
Proof.
  intro Hface. unfold submit_add_employee.
  destruct (negb (String.eqb _ _)); [reflexivity|].
  destruct (negb (forallb _ _)); [reflexivity|].
  assert (Hp : fst (process_face Img encode json_dumps (f_uploaded_image form)) = None).
  { unfold process_face. destruct (f_uploaded_image form) as [image|]; [|reflexivity].
    destruct (encode image) as [enc msg]. cbn [fst] in Hface. rewrite Hface. reflexivity. }
  destruct (process_face Img encode json_dumps (f_uploaded_image form)) as [fe warnings].
  cbn [fst] in Hp. subst fe.
  unfold add_employee. destruct db_error as [err|].
  - reflexivity.
  - destruct (existsb _ table).
    + reflexivity.
    + set (new_id := (1 + fold_right Z.max 0 (map id table))%Z).
      assert (E : forall row, face_encoding (data row) = None ->
                  registry (table ++ [row]) = registry table).
      { intros row Hrow. rewrite registry_snoc, (registry_enrolled [row]).
        unfold face_rows, FaceProofs.enrolled. cbn. rewrite Hrow. apply app_nil_r. }
      destruct (negb (new_id =? 0)%Z); apply E; reflexivity.
Qed.

End Add.

Lemma length_flat_map_map_le_filter {A B C} (f : B -> list C) (g : A -> B) (p : A -> bool) l :
  (forall x, (length (f (g x)) <= if p x then 1 else 0)%nat) ->
  (length (flat_map f (map g l)) <= length (filter p l))%nat.
Proof.
  intro H. induction l as [|x l IH]; simpl; [lia|].
  rewrite length_app. specialize (H x). destruct (p x); simpl; lia.
Qed.

(** A registry built by [load_known_faces] from the whole table never has
    more entries than the "Face Registered" metric of the employees list,
    which itself never exceeds the total; the Active and Admin metrics are
    bounded by the total as well. *)
Theorem employee_metrics_bound_registry json_loads_array (self : FaceRecognitionSystem.FRS)
    table :
  let '(total, active, faces, admins) := employee_metrics table in
  (length (FaceRecognitionSystem.known_face_names
             (FaceRecognitionSystem.load_known_faces json_loads_array self (face_rows table)))
     <= faces <= total)%nat /\
  (active <= total)%nat /\ (admins <= total)%nat.
Proof.
  unfold employee_metrics, count.
  split; [split|split; apply filter_length_le].
  - destruct (FaceProofs.load_loop_spec json_loads_array (face_rows table) [] [] eq_refl)
      as [Hc Hl].
    unfold FaceRecognitionSystem.load_known_faces. cbn [FaceRecognitionSystem.known_face_names].
    transitivity (length (FaceProofs.enrolled json_loads_array (face_rows table))).
    + change (FaceProofs.enrolled json_loads_array (face_rows table))
        with (combine [] [] ++ FaceProofs.enrolled json_loads_array (face_rows table)).
      rewrite <- Hc, length_combine, Hl, Nat.min_id. reflexivity.
    + unfold FaceProofs.enrolled, face_rows. apply length_flat_map_map_le_filter.
      intro r. cbn [FaceRecognitionSystem.face_encoding].
      unfold FaceRecognitionSystem.truthy.
      destruct (face_encoding (data r)) as [s|]; cbn [negb length]; [|lia].
      destruct (String.eqb s ""); cbn [negb length]; [lia|].
      destruct (json_loads_array s); cbn [length]; lia.
  - apply filter_length_le.
Qed.

(** The update form preselects the stored department when it is one of
    the six listed (the first one, Manufacturing, otherwise) and never
    raises doing so; it preselects the role "user" only for that role and
    "admin" for every other.  Its submit button writes nothing: the table,
    hence the face registry, stays as it was whatever was entered or
    uploaded, while it reports success and logs an audit entry. *)
Theorem update_employee_form_spec (department : string) (r : string)
    table selected_emp fn ln em dep rl act pw {Img} (photo : option Img) :
  (exists i, department_index department = ret i /\ (i < 6)%nat /\
     nth_error DEPARTMENTS i =
       Some (if py_in department DEPARTMENTS then department else "Manufacturing")) /\
  (nth_error ["user"; "admin"] (role_index r) =
     Some (if String.eqb r "user" then "user" else "admin")) /\
  submit_update_employee table selected_emp fn ln em dep rl act pw photo
    = (table, [StSuccess "Employee updated successfully!";
               AuditLog None ("Employee Updated: " ++ username (data selected_emp))
                 ("Employee " ++ fn ++ " " ++ ln ++ " details updated")]).
Proof.
  split; [|split; [|reflexivity]].
  - unfold department_index, DEPARTMENTS, py_in. cbn [existsb].
    repeat match goal with
           | |- context [String.eqb department ?k] =>
               let E := fresh "E" in
               destruct (String.eqb department k) eqn:E;
               [apply String.eqb_eq in E; subst department;
                eexists; split; [reflexivity|split; [lia|reflexivity]]|]
           end.
    cbn [orb]. exists 0%nat. split; [reflexivity|split; [lia|reflexivity]].
  - unfold role_index. destruct (String.eqb r "user"); reflexivity.
Qed.


(** A concrete run of the add form: the face library returns the embedding
    [0.5] for the upload, serialised as the JSON text [[0.5]]. *)
Definition toy_encode (_ : unit) : option FaceRecognitionSystem.Enc * string :=
  (Some [1 # 2], "Face encoded successfully").
Definition toy_no_face (_ : unit) : option FaceRecognitionSystem.Enc * string :=
  (None, "No face detected in the image").
Definition toy_dumps (_ : FaceRecognitionSystem.Enc) : string := "[0.5]".
Definition toy_loads (s : string) : Exc FaceRecognitionSystem.Enc :=
  if String.eqb s "[0.5]" then ret [1 # 2] else raise "JSONDecodeError".

Definition alice_form : AddForm unit :=
  {| f_first_name := "Alice"; f_last_name := "Smith"; f_username := "alice";
     f_email := "alice@example.com"; f_department := "Assembly"; f_role := "user";
     f_password := "pw"; f_confirm_password := "pw"; f_uploaded_image := Some tt |}.

Lemma add_employee_enrolls_face_witness :
  exists new_id row,
    fst (submit_add_employee unit (fun s => s) toy_encode toy_dumps None [] alice_form)
      = [] ++ [row] /\
    id row = new_id /\ (0 < new_id)%Z /\
    username (data row) = "alice" /\
    face_encoding (data row) = Some (toy_dumps [1 # 2]) /\
    registry toy_loads ([] ++ [row]) = registry toy_loads [] ++ [("alice", [1 # 2])].
Proof.
  apply (add_employee_enrolls_face unit (fun s => s) toy_encode toy_dumps toy_loads
           [] alice_form tt [1 # 2] "Face encoded successfully");
    try reflexivity; discriminate.
Defined.

Lemma add_employee_without_face_keeps_registry_witness :
  registry toy_loads
    (fst (submit_add_employee unit (fun s => s) toy_no_face toy_dumps None [] alice_form))
  = registry toy_loads [].
Proof.
  apply (add_employee_without_face_keeps_registry unit (fun s => s) toy_no_face toy_dumps
           toy_loads None [] alice_form).
  reflexivity.
Defined.

End AdminProofs.

(** * The compliance chatbot ([src/chatbot.py]) *)

Module Chatbot.

Section Chat.

(** The LangChain collaborators: [SQLDatabase.from_uri], the construction of
    the SQL agent from the API key and the database ([OpenAI(...)],
    [SQLDatabaseToolkit(...)], [create_sql_agent(...)], any of which may
    raise), and [agent.run]. *)
Variable SQLDatabase Agent : Type.
Variable from_uri : string -> Exc SQLDatabase.
Variable make_agent : string -> option SQLDatabase -> Exc Agent.
Variable agent_run : Agent -> string -> Exc string.

Record PPEChatbot := {
  db : option SQLDatabase;
  agent : option Agent }.

Definition setup_database (config : ConfigEnv.Config) : option SQLDatabase :=
  match from_uri (ConfigEnv.DATABASE_URL config) with
  | inr d => Some d
  | inl _ => None
  end.

(** [setup_agent]: returns early, leaving [agent] at [None], without an API
    key; an exception while building the agent leaves it at [None] too. *)
Definition setup_agent (config : ConfigEnv.Config) (db : option SQLDatabase) : option Agent :=
  if negb (FaceRecognitionSystem.truthy (ConfigEnv.OPENAI_API_KEY config)) then None
  else match make_agent (ConfigEnv.fmt_opt (ConfigEnv.OPENAI_API_KEY config)) db with
       | inr a => Some a
       | inl _ => None
       end.

Definition init (config : ConfigEnv.Config) : PPEChatbot :=
  let d := setup_database config in
  {| db := d; agent := setup_agent config d |}.

Definition context : string := "
            You are an AI assistant for PPE (Personal Protective Equipment) compliance monitoring.
            
            Database schema:
            - employees: stores employee information (id, username, first_name, last_name, email, department, role)
            - ppe_detections: stores detection records (id, employee_id, detection_timestamp, total_detections, violation_count, compliance_status)
            - violations: stores violation details (id, detection_id, employee_id, violation_type, severity, confidence, timestamp, resolved)
            - audit_logs: stores user activity logs
            
            PPE violation types: no_helmet, no_mask, no_goggles, no_glove, no_shoes, no-suit
            Severity levels: LOW, MEDIUM, HIGH, CRITICAL
            Compliance status: COMPLIANT, VIOLATION, PARTIAL
            
            When answering questions:
            1. Be specific and provide relevant data
            2. Include statistics when appropriate
            3. Mention safety recommendations for violations
            4. Format responses clearly
            
            Question: ".

(** [if not self.agent]: a built agent object is truthy. *)
Definition get_response (self : PPEChatbot) (question : string) : string :=
  match agent self with
  | None => "Chatbot is not properly initialized. Please check your OpenAI API key."
  | Some a =>
      let full_question := context ++ question in
      match agent_run a full_question with
      | inr response => response
      | inl e => "I apologize, but I encountered an error processing your question: "
                 ++ e ++ ". Please try rephrasing your question or contact support."
      end
  end.

End Chat.

End Chatbot.

(** * [DatabaseManager.export_violations_csv] ([src/database.py]) *)

Module ExportCsv.

Definition base_query : string := "
            SELECT 
                v.id,
                e.first_name || ' ' || e.last_name as employee_name,
                e.department,
                v.violation_type,
                v.severity,
                v.confidence,
                v.timestamp,
                v.resolved,
                v.resolved_by,
                v.resolved_at
            FROM violations v
            JOIN employees e ON v.employee_id = e.id
            ".

(** The SQL text: [start_date] and [end_date] are the [str] of the dates,
    [None] when not given. *)
Definition export_query (start_date end_date : option string) : string :=
  let query := base_query in
  let query := if FaceRecognitionSystem.truthy start_date && FaceRecognitionSystem.truthy end_date
               then query ++ " WHERE v.timestamp BETWEEN '" ++ ConfigEnv.fmt_opt start_date
                    ++ "' AND '" ++ ConfigEnv.fmt_opt end_date ++ "'"
               else query in
  query ++ " ORDER BY v.timestamp DESC".

Section Read.

(** [pd.read_sql], which may raise; the empty [DataFrame] of the
    [except] branch. *)
Variable DataFrame : Type.
Variable read_sql : string -> Exc DataFrame.
Variable empty_frame : DataFrame.

Definition export_violations_csv (start_date end_date : option string) : DataFrame :=
  match read_sql (export_query start_date end_date) with
  | inr df => df
  | inl _ => empty_frame
  end.

End Read.

End ExportCsv.

Module ChatExportProofs.
Import Chatbot ExportCsv.

(** Without an OpenAI API key (unset or empty), or when building the agent
    raises, every question gets the fixed "not properly initialized" reply:
    no question reaches the agent. *)
Theorem chatbot_without_agent_refuses {SQLDatabase Agent : Type}
    (from_uri : string -> Exc SQLDatabase)
    (make_agent : string -> option SQLDatabase -> Exc Agent)
    (agent_run : Agent -> string -> Exc string) config question :
  (FaceRecognitionSystem.truthy (ConfigEnv.OPENAI_API_KEY config) = false \/
   exists e, make_agent (ConfigEnv.fmt_opt (ConfigEnv.OPENAI_API_KEY config))
               (setup_database SQLDatabase from_uri config) = inl e) ->
  get_response SQLDatabase Agent agent_run
    (init SQLDatabase Agent from_uri make_agent config) question
  = "Chatbot is not properly initialized. Please check your OpenAI API key.".
Proof.
  intro H. unfold get_response, init, setup_agent. cbn [agent].
  destruct H as [H|[e H]].
  - rewrite H. reflexivity.
  - rewrite H. destruct (negb _); reflexivity.
Qed.

Lemma chatbot_without_agent_refuses_witness :
  get_response unit unit (fun _ q => ret q)
    (init unit unit (fun _ => raise "OperationalError") (fun _ _ => raise "AuthenticationError")
       AdminProofs.default_config) "How many violations today?"
  = "Chatbot is not properly initialized. Please check your OpenAI API key.".
Proof.
  apply (chatbot_without_agent_refuses (SQLDatabase := unit) (Agent := unit)).
  left. reflexivity.
Defined.

(** [export_violations_csv] filters by date only when both dates are
    given: with just one of them the export is the full, unfiltered one. *)
Theorem export_single_date_ignored {DataFrame : Type} (read_sql : string -> Exc DataFrame)
    (empty_frame : DataFrame) (d : string) :
  export_violations_csv DataFrame read_sql empty_frame (Some d) None
    = export_violations_csv DataFrame read_sql empty_frame None None /\
  export_violations_csv DataFrame read_sql empty_frame None (Some d)
    = export_violations_csv DataFrame read_sql empty_frame None None.
Proof.
  unfold export_violations_csv, export_query.
  rewrite andb_false_r. split; reflexivity.
Qed.

End ChatExportProofs.

Module DrawExtras.
Import PPEDetector Drawing.
Local Open Scope list_scope.

Definition four_coords (d : Detection.t) : Prop :=
  exists x1 y1 x2 y2, Detection.bbox d = [x1; y1; x2; y2].

Lemma process_box_four b d ov : process_box b = inr (d, ov) -> four_coords d.
Proof.
  unfold process_box. destruct (xyxy b) as [[[x1 y1] x2] y2].
  destruct (box_class_name (cls b)) as [e|c]; cbn [bind]; [discriminate|].
  destruct (py_in c violation_classes); intro H; inversion H; subst; clear H;
    exists x1, y1, x2, y2; reflexivity.
Qed.

Lemma scan_boxes_four bs : forall ds vs ds' vs',
  Forall four_coords ds -> scan_boxes bs ds vs = inr (ds', vs') -> Forall four_coords ds'.
Proof.
  induction bs as [|b bs IH]; intros ds vs ds' vs' F H; simpl in H.
  - inversion H; subst. exact F.
  - destruct (process_box b) as [e|[d ov]] eqn:P; cbn [bind] in H; [discriminate|].
    apply (IH _ _ _ _ (proj2 (Forall_app _ _ _) (conj F (Forall_cons _ (process_box_four _ _ _ P) (Forall_nil _)))) H).
Qed.

Lemma scan_results_four rs : forall ds vs ds' vs',
  Forall four_coords ds -> scan_results rs ds vs = inr (ds', vs') -> Forall four_coords ds'.
Proof.
  induction rs as [|r rs IH]; intros ds vs ds' vs' F H; simpl in H.
  - inversion H; subst. exact F.
  - destruct (boxes r) as [bs|].
    + destruct (scan_boxes bs ds vs) as [e|[ds1 vs1]] eqn:S; cbn [bind] in H; [discriminate|].
      exact (IH _ _ _ _ (scan_boxes_four _ _ _ _ _ F S) H).
    + cbn [bind ret] in H. exact (IH _ _ _ _ F H).
Qed.

Lemma detect_ppe_four {Image} (model : Image -> Q -> Exc (list Result)) image thr :
  Forall four_coords (Verdict.detections (detect_ppe model image thr)).
Proof.
  unfold detect_ppe, detect_ppe_body.
  destruct (model image thr) as [e|results]; cbn [bind]; [constructor|].
  destruct (scan_results results [] []) as [e|[ds vs]] eqn:S; cbn [bind]; [constructor|].
  exact (scan_results_four _ _ _ _ _ (Forall_nil _) S).
Qed.

Section Generic.

Variable cv2_rectangle : Buffer -> Z * Z -> Z * Z -> Color -> Z -> Buffer.
Variable cv2_putText : Buffer -> string -> Z * Z -> Q -> Color -> Z -> Buffer.
Variable cv2_getTextSize : string -> Q -> Z -> Z * Z.
Variable fmt2 : Q -> string.

Lemma draw_loop_four detections : forall h p,
  Forall four_coords detections ->
  exists h', draw_loop cv2_rectangle cv2_putText cv2_getTextSize fmt2 h p detections = inr h'.
Proof.
  induction detections as [|d ds IH]; intros h p F; [eexists; reflexivity|].
  inversion F as [|? ? [x1 [y1 [x2 [y2 Hb]]]] F']; subst.
  simpl. rewrite Hb. apply IH. exact F'.
Qed.

(** Drawing the detector's own output on a numpy array never raises: every
    detection [detect_ppe] returns has four coordinates.  The drawing goes
    to a fresh array, and the caller's array is left as it was. *)
Theorem draw_detector_output {Image} (model : Image -> Q -> Exc (list Result))
    image thr h p :
  (p < length h)%nat ->
  exists h' q,
    draw_detections cv2_rectangle cv2_putText cv2_getTextSize fmt2 h (NdArray p)
      (Verdict.detections (detect_ppe model image thr)) = inr (h', q) /\
    q = length h /\ nth_error h' p = nth_error h p.
Proof.
  intro Hp.
  destruct (draw_loop_four (Verdict.detections (detect_ppe model image thr))
              (h ++ [heap_get h p]) (length h) (detect_ppe_four model image thr)) as [h2 D].
  exists h2, (length h).
  assert (E : draw_detections cv2_rectangle cv2_putText cv2_getTextSize fmt2 h (NdArray p)
                (Verdict.detections (detect_ppe model image thr)) = inr (h2, length h)).
  { unfold draw_detections. cbn. rewrite D. reflexivity. }
  split; [exact E|].
  exact (DrawProofs.draw_detections_copy _ _ _ _ h p _ h2 (length h) E Hp).
Qed.

End Generic.

Lemma draw_detector_output_witness :
  exists h' q,
    draw_detections raster_rectangle raster_putText raster_getTextSize raster_fmt2
      [DrawProofs.black3] (NdArray 0)
      (Verdict.detections (detect_ppe PPEProofs.echo_model PPEProofs.helmet_and_no_mask (1 # 2)))
      = inr (h', q) /\
    q = length [DrawProofs.black3] /\ nth_error h' 0 = nth_error [DrawProofs.black3] 0.
Proof.
  apply (draw_detector_output raster_rectangle raster_putText raster_getTextSize raster_fmt2
           PPEProofs.echo_model PPEProofs.helmet_and_no_mask (1 # 2) [DrawProofs.black3] 0).
  simpl. lia.
Defined.

End DrawExtras.
